(** * Bank customer churn dashboard (app.py): a shallow embedding

    The script is a Streamlit page: a country selector feeds a cached
    loader, and the loaded pandas table is rendered top to bottom as
    metrics, charts gated by column presence, and an insights panel.

    Modelling conventions.
    - A pandas column is homogeneous (int64, float64 or object), as
      [read_csv] infers it; float64 cells are kept as the exact rational
      they denote.  Cells are never missing.
    - binary64 arithmetic is modelled for the operations performed on the
      churn rate ([/] inside [Series.mean], [* 100], the [.2f] format) and
      on the grouped mean (the compensated running sum of
      [groupby(...).mean()] and its division by the count), each operation
      correctly rounded (round to nearest, ties to even), with an
      unbounded exponent range and no signed zero.  [Series.mean] of a
      float64 column adds the values as numpy does and divides by the
      count; of an int64 column it is the correctly rounded quotient of
      the exact sum by the count, which is what pandas computes when the
      sum stays below 2^53.
    - Streamlit calls are recorded as the elements they append to the
      page; [st.stop] and Python exceptions end the run and keep what was
      rendered before them.  A widget created without a [key] is
      identified by its kind and arguments, and a second widget with the
      identity of an earlier one of the same run is refused with an
      exception.  Fixed HTML/CSS text of templates is represented by the
      fields interpolated into it. *)

From Stdlib Require Import ZArith QArith Qcanon Lia String Ascii List Bool.
From Stdlib Require DecimalString.
From stdpp Require Import base option list sorting gmap strings.

(* ===================================================================== *)
(** ** binary64 values, correct rounding and fixed-point formatting       *)
(* ===================================================================== *)

Module Float64.
Local Open Scope Z_scope.

(** Nearest integer to [a / b] for [0 < b], ties to the even neighbour. *)
Definition rne (a b : Z) : Z :=
  let q := a / b in
  let r := a mod b in
  if 2 * r <? b then q
  else if b <? 2 * r then q + 1
  else if Z.even q then q else q + 1.

(** A binary64 datum: not-a-number, or the finite value [m * 2^e]. *)
Inductive float64 : Type :=
| NaN
| Fin (m e : Z).

(** Numerator and denominator of [(a / b) / 2^e]. *)
Definition scaled (a b e : Z) : Z * Z :=
  if 0 <=? e then (a, b * 2 ^ e) else (a * 2 ^ (- e), b).

(** For [0 < a], [0 < b]: the exponent [e] with
    [2^52 <= (a / b) / 2^e < 2^53], that of the last mantissa bit. *)
Definition ulp_exp (a b : Z) : Z :=
  let e0 := Z.log2 a - Z.log2 b - 52 in
  let '(n, d) := scaled a b e0 in
  if n <? d * 2 ^ 52 then e0 - 1 else e0.

(** Round the positive rational [a / b] to 53 significant bits. *)
Definition round_pos (a b : Z) : float64 :=
  let e := ulp_exp a b in
  let '(n, d) := scaled a b e in
  let m := rne n d in
  if m =? 2 ^ 53 then Fin (2 ^ 52) (e + 1) else Fin m e.

(** The binary64 nearest to [a / b]; a zero denominator gives NaN. *)
Definition of_ratio (a b : Z) : float64 :=
  if b <=? 0 then NaN
  else if a =? 0 then Fin 0 0
  else if 0 <? a then round_pos a b
  else match round_pos (- a) b with
       | Fin m e => Fin (- m) e
       | NaN => NaN
       end.

Definition of_Z (z : Z) : float64 := of_ratio z 1.

Definition of_Qc (q : Qc) : float64 := of_ratio (Qnum q) (Zpos (Qden q)).

(** Correctly rounded product. *)
Definition mul (x y : float64) : float64 :=
  match x, y with
  | Fin m1 e1, Fin m2 e2 =>
      let '(n, d) := scaled (m1 * m2) 1 (- (e1 + e2)) in
      of_ratio n d
  | _, _ => NaN
  end.

Definition opp (x : float64) : float64 :=
  match x with
  | Fin m e => Fin (- m) e
  | NaN => NaN
  end.

(** Correctly rounded sum. *)
Definition add (x y : float64) : float64 :=
  match x, y with
  | Fin m1 e1, Fin m2 e2 =>
      let e := Z.min e1 e2 in
      let '(n, d) := scaled (m1 * 2 ^ (e1 - e) + m2 * 2 ^ (e2 - e)) 1 (- e) in
      of_ratio n d
  | _, _ => NaN
  end.

(** Correctly rounded difference. *)
Definition sub (x y : float64) : float64 := add x (opp y).

(** [x / n] for a count [n], correctly rounded. *)
Definition div_by (x : float64) (n : Z) : float64 :=
  match x with
  | Fin m e => let '(a, b) := scaled m 1 (- e) in of_ratio a (b * n)
  | NaN => NaN
  end.

(** [round(|x| * 10^p)] to the nearest integer, ties to even: the digits
    that [format(x, '.pf')] prints. *)
Definition fixed_digits (p : Z) (m e : Z) : Z :=
  let '(n, d) := scaled (Z.abs m * 10 ^ p) 1 (- e) in
  rne n d.

Definition digit (d : Z) : ascii := ascii_of_nat (48 + Z.to_nat d).

Definition decimal (z : Z) : string :=
  DecimalString.NilZero.string_of_uint (N.to_uint (Z.to_N z)).

Definition sign_prefix (m : Z) : string := if m <? 0 then "-"%string else ""%string.

(** The text of a count of hundredths [D]: integer part, point, two digits. *)
Definition show_hundredths (D : Z) : string :=
  (decimal (D / 100) ++
   String "."%char (String (digit (D mod 100 / 10)) (String (digit (D mod 10)) "")))%string.

(** [f"{x:.2f}"] *)
Definition format_2f (x : float64) : string :=
  match x with
  | NaN => "nan"%string
  | Fin m e => (sign_prefix m ++ show_hundredths (fixed_digits 2 m e))%string
  end.

(** Thousands separators, on the digits from the least significant end. *)
Fixpoint group3 (rev_digits : list ascii) : list ascii :=
  match rev_digits with
  | a :: b :: c :: ((_ :: _) as rest) => a :: b :: c :: ","%char :: group3 rest
  | _ => rev_digits
  end.

Definition with_commas (s : string) : string :=
  string_of_list_ascii (rev (group3 (rev (list_ascii_of_string s)))).

(** [f"{x:,.0f}"] *)
Definition format_comma_0f (x : float64) : string :=
  match x with
  | NaN => "nan"%string
  | Fin m e => (sign_prefix m ++ with_commas (decimal (fixed_digits 0 m e)))%string
  end.

End Float64.

(* ===================================================================== *)
(** ** The pandas operations the script calls                             *)
(* ===================================================================== *)

Module Pandas.
Import Float64.

(** Python exceptions the modelled calls can raise; the last one is
    Streamlit's, for an element that repeats the identity of another. *)
Inductive exn : Type :=
| KeyError (key : string)
| ValueError (msg : string)
| TypeError (msg : string)
| FileNotFoundError (path : string)
| DuplicateElementId (element_type : string).

Inductive result (A : Type) : Type :=
| Ok (a : A)
| Err (e : exn).
Arguments Ok {A} a.
Arguments Err {A} e.

#[export] Instance result_ret : MRet result := λ A a, Ok a.
#[export] Instance result_bind : MBind result := λ A B f m,
  match m with
  | Ok a => f a
  | Err e => Err e
  end.

(** A single value: an index label, a group key, a Python scalar. *)
Inductive cell : Type :=
| CInt (z : Z)
| CNum (q : Qc)
| CStr (s : string).

(** A column (Series) with its dtype: int64, float64 or object. *)
Inductive column : Type :=
| IntCol (xs : list Z)
| NumCol (xs : list Qc)
| StrCol (xs : list string).

(** [len(df)] rows under named columns, in file order. *)
Record DataFrame : Type := mkDataFrame {
  nrows : nat;
  columns : list (string * column)
}.

#[export] Instance exn_eq_dec : EqDecision exn.
Proof. solve_decision. Defined.
#[export] Instance cell_eq_dec : EqDecision cell.
Proof. solve_decision. Defined.
#[export] Instance column_eq_dec : EqDecision column.
Proof. solve_decision. Defined.

Definition cells (c : column) : list cell :=
  match c with
  | IntCol xs => CInt <$> xs
  | NumCol xs => CNum <$> xs
  | StrCol xs => CStr <$> xs
  end.

Definition col_length (c : column) : nat := length (cells c).

(** Every column is as long as the index, and names are distinct. *)
Definition well_formed (df : DataFrame) : bool :=
  forallb (λ nc, Nat.eqb (col_length nc.2) (nrows df)) (columns df)
  && bool_decide (NoDup (fst <$> columns df)).

Fixpoint lookup_column (name : string) (cols : list (string * column)) : option column :=
  match cols with
  | [] => None
  | (n, c) :: rest => if decide (n = name) then Some c else lookup_column name rest
  end.

(** [name in df.columns], also [name in df] *)
Definition has_column (name : string) (df : DataFrame) : bool :=
  match lookup_column name (columns df) with
  | Some _ => true
  | None => false
  end.

(** [df[name]] *)
Definition getitem (df : DataFrame) (name : string) : result column :=
  match lookup_column name (columns df) with
  | Some c => Ok c
  | None => Err (KeyError name)
  end.

(** The table without the columns named. *)
Definition without_columns (names : list string) (df : DataFrame) : DataFrame :=
  {| nrows := nrows df;
     columns := filter (λ nc, nc.1 ∉ names) (columns df) |}.

(** [df.drop(columns=names)]: a label that is no column is a KeyError. *)
Definition drop (names : list string) (df : DataFrame) : result DataFrame :=
  match filter (λ n, has_column n df = false) names with
  | [] => Ok (without_columns names df)
  | n :: _ => Err (KeyError n)
  end.

Definition take_column (n : nat) (c : column) : column :=
  match c with
  | IntCol xs => IntCol (take n xs)
  | NumCol xs => NumCol (take n xs)
  | StrCol xs => StrCol (take n xs)
  end.

(** [df.head()] *)
Definition head (df : DataFrame) : DataFrame :=
  {| nrows := Nat.min 5 (nrows df);
     columns := (λ nc, (nc.1, take_column 5 nc.2)) <$> columns df |}.

(** [series == v] for an integer scalar [v]. *)
Definition eq_scalar (c : column) (v : Z) : list bool :=
  match c with
  | IntCol xs => (λ x, bool_decide (x = v)) <$> xs
  | NumCol xs => (λ q, bool_decide (q = Q2Qc (inject_Z v))) <$> xs
  | StrCol xs => (λ _, false) <$> xs
  end.

(** Boolean indexing of a list. *)
Fixpoint select {A : Type} (mask : list bool) (xs : list A) : list A :=
  match mask, xs with
  | b :: mask', x :: xs' => if b then x :: select mask' xs' else select mask' xs'
  | _, _ => []
  end.

Definition select_column (mask : list bool) (c : column) : column :=
  match c with
  | IntCol xs => IntCol (select mask xs)
  | NumCol xs => NumCol (select mask xs)
  | StrCol xs => StrCol (select mask xs)
  end.

(** [df[mask]] *)
Definition filter_rows (mask : list bool) (df : DataFrame) : DataFrame :=
  {| nrows := length (select mask (seq 0 (nrows df)));
     columns := (λ nc, (nc.1, select_column mask nc.2)) <$> columns df |}.

Definition Zsum (xs : list Z) : Z := foldr Z.add 0%Z xs.
Definition Qcsum (xs : list Qc) : Qc := foldr Qcplus (Q2Qc 0) xs.
Definition concat_strings (xs : list string) : string := foldr String.append EmptyString xs.

(** [series.sum()] *)
Definition series_sum (c : column) : cell :=
  match c with
  | IntCol xs => CInt (Zsum xs)
  | NumCol xs => CNum (Qcsum xs)
  | StrCol [] => CInt 0
  | StrCol xs => CStr (concat_strings xs)
  end.

(** The numbers of a numeric column; text that is no number is refused. *)
Definition numeric_values (c : column) : result (list Qc) :=
  match c with
  | IntCol xs => Ok ((λ z, Q2Qc (inject_Z z)) <$> xs)
  | NumCol xs => Ok xs
  | StrCol [] => Ok []
  | StrCol _ => Err (TypeError "Could not convert string to numeric")
  end.

(** Eight running sums over the blocks of eight values that follow the
    first: the sums, and the values left over. *)
Fixpoint add_blocks (blocks : nat) (r xs : list float64) : list float64 * list float64 :=
  match blocks with
  | 0 => (r, xs)
  | S blocks' => add_blocks blocks' (zip_with add r (take 8 xs)) (skipn 8 xs)
  end.

Definition add_tree (r : list float64) : float64 :=
  match r with
  | [r0; r1; r2; r3; r4; r5; r6; r7] =>
      add (add (add r0 r1) (add r2 r3)) (add (add r4 r5) (add r6 r7))
  | _ => NaN
  end.

(** The sum of a float64 array as numpy adds it up (pairwise summation):
    fewer than 8 values one by one; up to 128 values in eight running
    sums that are then added in pairs, the values beyond the last
    multiple of 8 one by one; more values in two halves, the first a
    multiple of 8 long. *)
Fixpoint pairwise_sum (fuel : nat) (xs : list float64) : float64 :=
  let n := length xs in
  if (n <? 8)%nat then fold_left add xs (Fin 0 0)
  else if (n <=? 128)%nat then
    let '(r, rest) := add_blocks (n / 8 - 1) (take 8 xs) (skipn 8 xs) in
    fold_left add rest (add_tree r)
  else
    match fuel with
    | 0 => NaN
    | S fuel' =>
        let n2 := (n / 2 - (n / 2) mod 8)%nat in
        add (pairwise_sum fuel' (take n2 xs)) (pairwise_sum fuel' (skipn n2 xs))
    end.

(** [values.sum()]: the reduction starts from zero. *)
Definition np_sum (xs : list float64) : float64 :=
  add (Fin 0 0) (pairwise_sum (length xs) xs).

(** The mean of a float64 column as pandas returns it: the sum divided by
    the count in binary64, NaN for no numbers. *)
Definition mean_of (xs : list Qc) : float64 :=
  div_by (np_sum (of_Qc <$> xs)) (Z.of_nat (length xs)).

(** [series.mean()] *)
Definition series_mean (c : column) : result float64 :=
  match c with
  | IntCol xs => Ok (of_ratio (Zsum xs) (Z.of_nat (length xs)))
  | _ => xs ← numeric_values c; Ok (mean_of xs)
  end.

(** One more occurrence of [x] in a tally kept in order of first appearance. *)
Fixpoint tally (x : cell) (acc : list (cell * nat)) : list (cell * nat) :=
  match acc with
  | [] => [(x, 1)]
  | (y, n) :: rest =>
      if decide (x = y) then (y, S n) :: rest else (y, n) :: tally x rest
  end.

Definition counts_in_order (xs : list cell) : list (cell * nat) :=
  fold_left (λ acc x, tally x acc) xs [].

Definition more_frequent (a b : cell * nat) : Prop := b.2 ≤ a.2.

(** Put an entry behind the entries that are at least as frequent. *)
Fixpoint insert_by_count (p : cell * nat) (l : list (cell * nat)) : list (cell * nat) :=
  match l with
  | [] => [p]
  | q :: rest =>
      if (q.2 <? p.2)%nat then p :: q :: rest else q :: insert_by_count p rest
  end.

(** Most frequent first; entries of equal count keep their order. *)
Definition sort_by_count (l : list (cell * nat)) : list (cell * nat) :=
  fold_left (λ acc p, insert_by_count p acc) l [].

(** [series.value_counts()]: label and count, most frequent first, labels
    of equal count in order of first appearance. *)
Definition value_counts (c : column) : list (cell * nat) :=
  sort_by_count (counts_in_order (cells c)).

Fixpoint argmax_from (best : cell * nat) (rest : list (cell * nat)) : cell :=
  match rest with
  | [] => best.1
  | p :: rest' =>
      if (best.2 <? p.2)%nat then argmax_from p rest' else argmax_from best rest'
  end.

(** [counts.idxmax()]: the first label with the largest count. *)
Definition idxmax (s : list (cell * nat)) : result cell :=
  match s with
  | [] => Err (ValueError "attempt to get argmax of an empty sequence")
  | p :: rest => Ok (argmax_from p rest)
  end.

(** Python equality of a label with an integer dictionary key. *)
Definition label_is (l : cell) (k : Z) : bool :=
  match l with
  | CInt z => bool_decide (z = k)
  | CNum q => bool_decide (q = Q2Qc (inject_Z k))
  | CStr _ => false
  end.

Fixpoint rename_label (mapping : list (Z * string)) (l : cell) : cell :=
  match mapping with
  | [] => l
  | (k, s) :: rest => if label_is l k then CStr s else rename_label rest l
  end.

(** [counts.rename(mapping)] *)
Definition rename (mapping : list (Z * string)) (s : list (cell * nat)) : list (cell * nat) :=
  (λ p, (rename_label mapping p.1, p.2)) <$> s.

(** Order of labels: numbers by value, text lexicographically. *)
Definition cell_leb (a b : cell) : bool :=
  match a, b with
  | CInt x, CInt y => (x <=? y)%Z
  | CInt x, CNum y => Qle_bool (inject_Z x) y
  | CNum x, CInt y => Qle_bool x (inject_Z y)
  | CNum x, CNum y => Qle_bool x y
  | CStr x, CStr y => String.leb x y
  | CStr _, _ => false
  | _, CStr _ => true
  end.

Definition cell_le (a b : cell) : Prop := cell_leb a b = true.

#[export] Instance cell_le_dec : RelDecision cell_le.
Proof. intros a b. unfold cell_le. apply _. Defined.

(** [series.unique()]: distinct values in order of first appearance. *)
Definition unique (c : column) : list cell :=
  fold_left (λ acc x, if decide (x ∈ acc) then acc else acc ++ [x]) (cells c) [].

(** [sorted(values)] *)
Definition sorted (xs : list cell) : list cell := merge_sort cell_le xs.

(** Group keys of a two-column groupby. *)
Definition key : Type := cell * cell.

Definition key_le (a b : key) : Prop :=
  if decide (a.1 = b.1) then cell_le a.2 b.2 else cell_le a.1 b.1.

#[export] Instance key_le_dec : RelDecision key_le.
Proof. intros a b. unfold key_le. destruct (decide (a.1 = b.1)); apply _. Defined.

(** What the grouped mean keeps for one group: the running sum, its
    compensation (Kahan summation) and the number of values. *)
Record group_state : Type := GroupState {
  sumx : float64;
  compensation : float64;
  nobs : nat
}.

Definition no_values : group_state :=
  {| sumx := Fin 0 0; compensation := Fin 0 0; nobs := 0 |}.

(** One more value of the group. *)
Definition add_value (g : group_state) (val : float64) : group_state :=
  let y := sub val (compensation g) in
  let t := add (sumx g) y in
  let c := sub (sub t (sumx g)) y in
  {| sumx := t;
     compensation := match c with NaN => Fin 0 0 | Fin _ _ => c end;
     nobs := S (nobs g) |}.

Definition group_le (a b : key * group_state) : Prop := key_le a.1 b.1.

#[export] Instance group_le_dec : RelDecision group_le.
Proof. intros a b. unfold group_le. apply _. Defined.

(** The groups met so far, in order of first appearance, after one more
    row with key [k] and value [v]. *)
Fixpoint accumulate (k : key) (v : float64) (acc : list (key * group_state))
  : list (key * group_state) :=
  match acc with
  | [] => [(k, add_value no_values v)]
  | (k', g) :: rest =>
      if decide (k = k') then (k', add_value g v) :: rest
      else (k', g) :: accumulate k v rest
  end.

Definition group_sums (rows : list (key * Qc)) : list (key * group_state) :=
  fold_left (λ acc r, accumulate r.1 (of_Qc r.2) acc) rows [].

Definition group_means (rows : list (key * Qc)) : list (key * float64) :=
  (λ g, (g.1, div_by (sumx g.2) (Z.of_nat (nobs g.2))))
    <$> merge_sort group_le (group_sums rows).

(** The rows of a groupby: key pair and aggregated value, row by row. *)
Definition keyed_rows (k1 k2 : column) (vals : list Qc) : list (key * Qc) :=
  zip (zip (cells k1) (cells k2)) vals.

(** [grouped[target]]: the column of a groupby to aggregate. *)
Definition groupby_getitem (df : DataFrame) (target : string) : result column :=
  match lookup_column target (columns df) with
  | Some c => Ok c
  | None => Err (KeyError ("Column not found: " ++ target))
  end.

(** [df.groupby([by1, by2])[target].mean().reset_index()]: one row per
    key pair, in key order. *)
Definition groupby_mean (df : DataFrame) (by1 by2 target : string)
  : result (list (key * float64)) :=
  k1 ← getitem df by1;
  k2 ← getitem df by2;
  v ← groupby_getitem df target;
  vals ← numeric_values v;
  Ok (group_means (keyed_rows k1 k2 vals)).

End Pandas.

(* ===================================================================== *)
(** ** Streamlit: page elements, runs of a script, cached functions       *)
(* ===================================================================== *)

Module Streamlit.
Import Float64 Pandas.

(** A named column handed to a chart. *)
Definition series : Type := string * column.

(** Figures of plotly express, with the data they draw. *)
Inductive figure : Type :=
| Histogram (x color : series) (title : string) (barmode : option string)
    (nbins : option Z) (labels : list (string * string))
    (category_orders : list (string * list cell))
    (axis_titles : option (string * string))
| Box (x y color : series) (title : string)
| Bar (data : list (key * float64)) (x y color : string) (barmode : string)
    (title : string)
| Pie (values : list nat) (names : list cell) (title : string).

(** HTML passed to [st.markdown(..., unsafe_allow_html=True)], by its
    interpolated fields. *)
Inductive html : Type :=
| insight_template (heading_color country churn_rate avg_salary_churned : string)
    (top_card_churned common_agegroup_churned : cell) (avg_salary_retained : string)
| link_button (url style label : string).

Inductive element : Type :=
| st_set_page_config (page_title layout : string)
| st_title (body : string)
| st_sidebar_title (body : string)
| st_sidebar_selectbox (label : string) (options : list string)
| st_error (body : string)
| st_markdown (body : string)
| st_markdown_html (body : html)
| st_dataframe (data : DataFrame)
| st_columns (n : nat)
| in_column (i : nat) (el : element)
| st_metric (label : string) (value : cell)
| st_plotly_chart (fig : figure) (use_container_width : bool)
| st_expander (label body : string).

(** How a run ends: normally with a value, by [st.stop()], or by an
    uncaught exception. *)
Inductive status (A : Type) : Type :=
| Done (a : A)
| Stopped
| Raised (e : exn).
Arguments Done {A} a.
Arguments Stopped {A}.
Arguments Raised {A} e.

(** A run: what was put on the page, in order, and how the run ended. *)
Record run (E A : Type) : Type := Run {
  emitted : list E;
  ending : status A
}.
Arguments Run {E A} emitted ending.
Arguments emitted {E A} r.
Arguments ending {E A} r.

#[export] Instance run_ret {E} : MRet (run E) := λ A a, Run [] (Done a).
#[export] Instance run_bind {E} : MBind (run E) := λ A B f m,
  match ending m with
  | Done a => let r := f a in Run (emitted m ++ emitted r) (ending r)
  | Stopped => Run (emitted m) Stopped
  | Raised e => Run (emitted m) (Raised e)
  end.

Definition emit {E} (e : E) : run E unit := Run [e] (Done tt).
Definition stop {E A} : run E A := Run [] Stopped.

(** Run a pandas call: its exception, if any, ends the script. *)
Definition try {E A} (r : result A) : run E A :=
  match r with
  | Ok a => Run [] (Done a)
  | Err e => Run [] (Raised e)
  end.

(** Label what a block of the script emits with the block's name. *)
Definition within {S E A} (s : S) (m : run E A) : run (S * E) A :=
  Run (pair s <$> emitted m) (ending m).

(** The value a selectbox returns: the option the user has chosen, the
    first option until they choose. *)
Definition selected (options : list string) (choice : nat) : string :=
  nth choice options (hd EmptyString options).

(** What tells the widgets of one run apart when no [key] is given: the
    kind of widget, its label and its options. *)
Definition widget_id : Type := string * string * list string.

Definition selectbox_id (label : string) (options : list string) : widget_id :=
  ("selectbox"%string, label, options).

(** [st.sidebar.selectbox(label, options)] in a run that has created the
    widgets [registered]: the dropdown is rendered and the chosen option
    returned, unless an earlier widget of the run has the same identity. *)
Definition sidebar_selectbox (registered : list widget_id) (label : string)
    (options : list string) (choice : nat) : run element string :=
  if decide (selectbox_id label options ∈ registered)
  then Run [] (Raised (DuplicateElementId "selectbox"))
  else Run [st_sidebar_selectbox label options] (Done (selected options choice)).

(** [px.*] look their column arguments up in the frame. *)
Definition px_column (df : DataFrame) (name : string) : result series :=
  match lookup_column name (columns df) with
  | Some c => Ok (name, c)
  | None => Err (ValueError name)
  end.

Definition px_histogram (df : DataFrame) (x color title : string)
    (barmode : option string) (nbins : option Z) (labels : list (string * string))
    (category_orders : list (string * list cell)) : result figure :=
  xs ← px_column df x;
  cs ← px_column df color;
  Ok (Histogram xs cs title barmode nbins labels category_orders None).

Definition px_box (df : DataFrame) (x y color title : string) : result figure :=
  xs ← px_column df x;
  ys ← px_column df y;
  cs ← px_column df color;
  Ok (Box xs ys cs title).

Definition update_layout (fig : figure) (xaxis_title yaxis_title : string) : figure :=
  match fig with
  | Histogram x c t b n l o _ => Histogram x c t b n l o (Some (xaxis_title, yaxis_title))
  | _ => fig
  end.

(** The process-wide state of [st.cache_data] for one function, with the
    files read so far. *)
Record session : Type := Session {
  cache : gmap string DataFrame;
  reads : list string
}.

(** File contents as [pd.read_csv] parses them; [None] for no such file. *)
Definition filesystem : Type := string → option DataFrame.

(** [@st.cache_data]: a stored value is returned without running the
    body; a value the body returns is stored under the argument. *)
Definition cache_data (body : string → list string * result DataFrame)
    (arg : string) (s : session) : result DataFrame * session :=
  match cache s !! arg with
  | Some df => (Ok df, s)
  | None =>
      let '(files, r) := body arg in
      match r with
      | Ok df => (Ok df, {| cache := <[arg := df]> (cache s); reads := reads s ++ files |})
      | Err e => (Err e, {| cache := cache s; reads := reads s ++ files |})
      end
  end.

End Streamlit.

(* ===================================================================== *)
(** ** app.py                                                             *)
(* ===================================================================== *)

Module App.
Import Float64 Pandas Streamlit.

(** The blocks of the script, by the comments that head them. *)
Inductive block : Type :=
| Page | Sidebar | Load | ChurnColumnCheck | Overview | Metrics
| ChurnDistribution | ChurnByGender | ChurnByAge | ChurnByCreditScore
| SalaryByAgeGroup | SalaryByAgeGroupAndCard | ChurnBreakdown | ChurnByTenure
| ChurnByCreditScoreCategory | Insights | Connect | Faq.

#[export] Instance block_eq_dec : EqDecision block.
Proof. solve_decision. Defined.

Abbreviation script := (run element).
Abbreviation page := (run (block * element)).

Definition countries : list string := ["France"; "Germany"; "Spain"].

Definition file_map : gmap string string :=
  list_to_map [("France", "france_df.csv"); ("Germany", "germany_df.csv");
               ("Spain", "spain_df.csv")].

Definition cols_to_drop : list string := ["Unnamed: 0"; "RowNumber"].

(** Body of [load_country_data], with the files it reads. *)
Definition load_country_data_body (fs : filesystem) (selected_country : string)
  : list string * result DataFrame :=
  match file_map !! selected_country with
  | None => ([], Err (KeyError selected_country))
  | Some path =>
      match fs path with
      | None => ([path], Err (FileNotFoundError path))
      | Some df => ([path], drop (filter (λ col, has_column col df) cols_to_drop) df)
      end
  end.

Definition load_country_data (fs : filesystem) : string → session → result DataFrame * session :=
  cache_data (load_country_data_body fs).

Definition country_selectbox : element :=
  st_sidebar_selectbox "Choose a country" countries.

(** Lines 6-13. *)
Definition page_header : script unit :=
  emit (st_set_page_config "Bank Customer Churn Dashboard" "wide");;
  emit (st_title "🏦 Bank Customer Churn Dashboard").

(** Lines 12-13 and line 31: the selectbox is created and then created
    again, with the same label and options and no key; [choice1] and
    [choice2] are what the user has picked in either. *)
Definition sidebar (choice1 choice2 : nat) : script string :=
  emit (st_sidebar_title "Select Country");;
  sidebar_selectbox [] "Choose a country" countries choice1;;
  sidebar_selectbox [selectbox_id "Choose a country" countries]
    "Choose a country" countries choice2.

(** Lines 36-38. *)
Definition churn_column_check (df : DataFrame) : script unit :=
  if has_column "Exited" df then mret tt
  else emit (st_error "The expected column `Exited` is not found in the dataset.");;
       stop.

(** Lines 41-42. *)
Definition overview (country : string) (df : DataFrame) : script unit :=
  emit (st_markdown ("### Dataset Overview - " ++ country));;
  emit (st_dataframe (head df)).

(** Lines 45-52; the churn rate is used again by the insights panel. *)
Definition metrics (df : DataFrame) : script float64 :=
  emit (st_columns 3);;
  emit (in_column 1 (st_metric "Total Customers" (CInt (Z.of_nat (nrows df)))));;
  exited ← try (getitem df "Exited");
  emit (in_column 2 (st_metric "Churned Customers" (series_sum exited)));;
  exited ← try (getitem df "Exited");
  mean ← try (series_mean exited);
  let churn_rate := mul mean (of_Z 100) in
  emit (in_column 3 (st_metric "Churn Rate (%)" (CStr (format_2f churn_rate))));;
  mret churn_rate.

(** Lines 55-60. *)
Definition churn_distribution (df : DataFrame) : script unit :=
  fig1 ← try (px_histogram df "Exited" "Exited" "Churn Distribution" (Some "group")
                (Some 1%Z) [("Exited", "Churned (1) vs Not Churned (0)")] []);
  emit (st_plotly_chart fig1 true).

(** Lines 63-66. *)
Definition churn_by_gender (df : DataFrame) : script unit :=
  if has_column "Gender" df then
    fig2 ← try (px_histogram df "Gender" "Exited" "Churn by Gender" (Some "group")
                  None [] []);
    emit (st_plotly_chart fig2 true)
  else mret tt.

(** Lines 69-72. *)
Definition churn_by_age (df : DataFrame) : script unit :=
  if has_column "Age" df then
    fig3 ← try (px_box df "Exited" "Age" "Exited" "Age Distribution by Churn Status");
    emit (st_plotly_chart fig3 true)
  else mret tt.

(** Lines 75-78. *)
Definition churn_by_credit_score (df : DataFrame) : script unit :=
  if has_column "CreditScore" df then
    fig4 ← try (px_histogram df "CreditScore" "Exited"
                  "Credit Score Distribution by Churn" None None [] []);
    emit (st_plotly_chart fig4 true)
  else mret tt.

(** Lines 80-84. *)
Definition salary_by_age_group (df : DataFrame) : script unit :=
  if has_column "AgeGroup" df && has_column "EstimatedSalary" df then
    emit (st_markdown "### Estimated Salary by Age Group (Box Plot)");;
    fig5 ← try (px_box df "AgeGroup" "EstimatedSalary" "AgeGroup"
                  "Estimated Salary Distribution Across Age Groups");
    emit (st_plotly_chart fig5 true)
  else mret tt.

(** Line 89. *)
Definition grouped_df (df : DataFrame) : result (list (key * float64)) :=
  groupby_mean df "AgeGroup" "Card Type" "EstimatedSalary".

(** Lines 87-93. *)
Definition salary_by_age_group_and_card (df : DataFrame) : script unit :=
  if has_column "AgeGroup" df && has_column "Card Type" df then
    emit (st_markdown "### Avg Estimated Salary by Age Group & Card Type");;
    grouped ← try (grouped_df df);
    let fig6 := Bar grouped "AgeGroup" "EstimatedSalary" "Card Type" "group"
                  "Average Estimated Salary by Age Group and Card Type" in
    emit (st_plotly_chart fig6 true)
  else mret tt.

(** Line 97. *)
Definition churn_counts (exited : column) : list (cell * nat) :=
  rename [(0%Z, "Retained"); (1%Z, "Churned")] (value_counts exited).

(** Lines 96-100. *)
Definition churn_breakdown (df : DataFrame) : script unit :=
  emit (st_markdown "### Churn Breakdown");;
  exited ← try (getitem df "Exited");
  let counts := churn_counts exited in
  let fig7 := Pie (snd <$> counts) (fst <$> counts) "Churn vs Retention" in
  emit (st_plotly_chart fig7 true).

(** Lines 103-107. *)
Definition churn_by_tenure (df : DataFrame) : script unit :=
  if has_column "Tenure" df then
    emit (st_markdown "### Churn by Tenure");;
    fig8 ← try (px_histogram df "Tenure" "Exited"
                  "Churn Distribution by Customer Tenure" (Some "group") None [] []);
    emit (st_plotly_chart fig8 true)
  else mret tt.

(** Lines 109-122. *)
Definition churn_by_credit_score_category (df : DataFrame) : script unit :=
  if has_column "CreditScoreCategory" df then
    emit (st_markdown "### Churn by Credit Score Category");;
    category ← try (getitem df "CreditScoreCategory");
    fig9 ← try (px_histogram df "CreditScoreCategory" "Exited"
                  "Churn Distribution Across Credit Score Categories" (Some "group") None
                  [("Exited", "Churn Status");
                   ("Credit Score Category", "Credit Score Category")]
                  [("Credit Score Category", sorted (unique category))]);
    emit (st_plotly_chart
            (update_layout fig9 "Credit Score Category" "Number of Customers") true)
  else mret tt.

Definition country_heading_colors : gmap string string :=
  list_to_map [("France", "#0055A4"); ("Germany", "#D00000"); ("Spain", "#FFC400")].

(** Lines 134-135: [col.value_counts().idxmax() if name in churned else 'N/A']. *)
Definition most_common (churned : DataFrame) (name : string) : result cell :=
  if has_column name churned then
    col ← getitem churned name;
    idxmax (value_counts col)
  else Ok (CStr "N/A").

(** [frame['EstimatedSalary'].mean()], lines 131-132. *)
Definition avg_salary (frame : DataFrame) : result float64 :=
  salary ← getitem frame "EstimatedSalary";
  series_mean salary.

(** Lines 125-185. *)
Definition insights (country : string) (df : DataFrame) (churn_rate : float64)
  : script unit :=
  emit (st_markdown "##  Key Findings & Insights");;
  exited ← try (getitem df "Exited");
  let churned := filter_rows (eq_scalar exited 1) df in
  exited ← try (getitem df "Exited");
  let retained := filter_rows (eq_scalar exited 0) df in
  avg_salary_churned ← try (avg_salary churned);
  avg_salary_retained ← try (avg_salary retained);
  top_card_churned ← try (most_common churned "Card Type");
  common_agegroup_churned ← try (most_common churned "AgeGroup");
  let heading_color := default "#FFD700" (country_heading_colors !! country) in
  emit (st_markdown_html
          (insight_template heading_color country (format_2f churn_rate)
             (format_comma_0f avg_salary_churned) top_card_churned
             common_agegroup_churned (format_comma_0f avg_salary_retained)));;
  emit (st_markdown "---").

Definition linkedin_url : string := "http://www.linkedin.com/in/neha-sharma-09835724b".
Definition github_url : string := "https://github.com/NehaSharma-26".

(** Lines 188-205. *)
Definition connect : script unit :=
  emit (st_markdown "## Connect with Me");;
  emit (st_columns 2);;
  emit (in_column 1 (st_markdown_html
    (link_button linkedin_url
       "background-color:#0e76a8; color:white; padding:10px 24px; border:none; border-radius:8px; font-size:16px; cursor:pointer;"
       "💼 LinkedIn Profile")));;
  emit (in_column 2 (st_markdown_html
    (link_button github_url
       "background-color:#333; color:white; padding:10px 24px; border:none; border-radius:8px; font-size:16px; cursor:pointer;"
       "💻 GitHub Projects"))).

(** Lines 208-220. *)
Definition faq : script unit :=
  emit (st_markdown "## Frequently Asked Questions");;
  emit (st_expander "What does 'churn' mean in this dashboard?"
    "Churn refers to customers who have exited the bank — meaning they’ve closed their accounts or stopped using services.");;
  emit (st_expander "How is churn rate calculated?"
    "Churn Rate = (Number of Churned Customers / Total Customers) × 100");;
  emit (st_expander "What is the meaning of 'Card Type'?"
    "This usually refers to the type of bank card issued to the customer (e.g., Gold, Silver, Platinum), which may correlate with spending habits or services.");;
  emit (st_expander "How was this dashboard built?"
    "This dashboard was created using Python, Streamlit, and Plotly for interactive data visualization. It’s meant to simulate a PowerBI-like dashboard in code.").

(** Lines 36-220: everything below the loader, for the loaded table. *)
Definition render_table (country : string) (df : DataFrame) : page unit :=
  within ChurnColumnCheck (churn_column_check df);;
  within Overview (overview country df);;
  churn_rate ← within Metrics (metrics df);
  within ChurnDistribution (churn_distribution df);;
  within ChurnByGender (churn_by_gender df);;
  within ChurnByAge (churn_by_age df);;
  within ChurnByCreditScore (churn_by_credit_score df);;
  within SalaryByAgeGroup (salary_by_age_group df);;
  within SalaryByAgeGroupAndCard (salary_by_age_group_and_card df);;
  within ChurnBreakdown (churn_breakdown df);;
  within ChurnByTenure (churn_by_tenure df);;
  within ChurnByCreditScoreCategory (churn_by_credit_score_category df);;
  within Insights (insights country df churn_rate);;
  within Connect connect;;
  within Faq faq.

(** One execution of the script.  The loader is called with the value of
    the selectbox of line 31, in a run that gets that far. *)
Definition app (fs : filesystem) (choice1 choice2 : nat) (s : session)
  : page unit * session :=
  let above := within Page page_header;; within Sidebar (sidebar choice1 choice2) in
  match ending above with
  | Done country =>
      let '(loaded, s') := load_country_data fs country s in
      (above;; df ← within Load (try loaded); render_table country df, s')
  | Stopped => (Run (emitted above) Stopped, s)
  | Raised e => (Run (emitted above) (Raised e), s)
  end.

End App.

(* ===================================================================== *)
(** ** Vocabulary of the statements                                       *)
(* ===================================================================== *)

Module Props.
Import Float64 Pandas Streamlit App.

(** A run puts only elements satisfying [P] on the page. *)
Definition all_emitted {E A} (P : E → Prop) (m : run E A) : Prop :=
  Forall P (emitted m).

(** Widgets that take input from the user. *)
Fixpoint is_input_widget (el : element) : bool :=
  match el with
  | st_sidebar_selectbox _ _ => true
  | in_column _ inner => is_input_widget inner
  | _ => false
  end.

Definition input_widgets (els : list (block * element)) : list (block * element) :=
  filter (λ be, is_input_widget be.2 = true) els.

Definition is_chart (el : element) : bool :=
  match el with
  | st_plotly_chart _ _ => true
  | _ => false
  end.

Definition is_pie (el : element) : bool :=
  match el with
  | st_plotly_chart (Pie _ _ _) _ => true
  | _ => false
  end.

(** What lines 6-13 put on the page. *)
Definition above_the_loader : list (block * element) :=
  [(Page, st_set_page_config "Bank Customer Churn Dashboard" "wide");
   (Page, st_title "🏦 Bank Customer Churn Dashboard");
   (Sidebar, st_sidebar_title "Select Country");
   (Sidebar, country_selectbox)].

(** The elements of one block of the script among those of a page. *)
Definition block_elements (b : block) (els : list (block * element))
  : list (block * element) :=
  filter (λ be, be.1 = b) els.

Definition exited_missing_message : block * element :=
  (ChurnColumnCheck,
   st_error "The expected column `Exited` is not found in the dataset.").

Definition empty_session : session := {| cache := ∅; reads := [] |}.

(** A table with the two group keys of the bar chart and no salary. *)
Definition table_without_salary : DataFrame :=
  {| nrows := 2;
     columns := [("Exited", IntCol [1; 0]%Z);
                 ("AgeGroup", StrCol ["30-40"; "40-50"]);
                 ("Card Type", StrCol ["GOLD"; "SILVER"])] |}.

(** A table with the churn flag alone. *)
Definition table_exited_only : DataFrame :=
  {| nrows := 2; columns := [("Exited", IntCol [1; 0]%Z)] |}.

(** First binding of a key in an association list. *)
Fixpoint assoc_get {K V} `{EqDecision K} (k : K) (l : list (K * V)) : option V :=
  match l with
  | [] => None
  | (k', v) :: rest => if decide (k = k') then Some v else assoc_get k rest
  end.

(** How often a value occurs. *)
Definition count_of (x : cell) (xs : list cell) : nat :=
  length (filter (λ y, y = x) xs).

Definition occurrences (v : Z) (xs : list Z) : nat :=
  length (filter (λ x, x = v) xs).


(** The tally after a sequence of values: each value met so far once,
    with the number of times it was met. *)
Definition tally_of (seen : list cell) (acc : list (cell * nat)) : Prop :=
  NoDup acc.*1
  ∧ sum_list acc.*2 = length seen
  ∧ ∀ y, assoc_get y acc =
         if decide (count_of y seen = 0%nat) then None else Some (count_of y seen).






(** The table preview of the overview block. *)
Definition is_preview (el : element) : bool :=
  match el with
  | st_dataframe _ => true
  | _ => false
  end.

(** Elements of every block but the tenure chart, the table preview apart. *)
Definition beside_tenure (be : block * element) : bool :=
  negb (bool_decide (be.1 = ChurnByTenure)) && negb (is_preview be.2).

Definition other_sections (els : list (block * element)) : list (block * element) :=
  filter (λ be, beside_tenure be = true) els.

(** Two runs that end alike and agree on the other sections. *)
Definition same_elsewhere {A} (m m' : page A) : Prop :=
  other_sections (emitted m) = other_sections (emitted m') ∧ ending m = ending m'.

(** [m * 2^e] is within half a unit in the last place of [a / b]. *)
Definition half_ulp (m e a b : Z) : Prop :=
  let '(n, d) := scaled a b e in (2 * Z.abs (m * d - n) <= d)%Z.


(** The churn rate of [k] churned customers among [n], as line 51
    computes it and as line 52 prints it. *)
Definition churn_rate_of (k n : Z) : float64 := mul (of_ratio k n) (of_Z 100).
Definition churn_rate_text (k n : Z) : string := format_2f (churn_rate_of k n).

(** What the metrics block shows for [n] rows of which [k] churned. *)
Definition metrics_shown (n k : Z) (rate : string) : list element :=
  [st_columns 3;
   in_column 1 (st_metric "Total Customers" (CInt n));
   in_column 2 (st_metric "Churned Customers" (CInt k));
   in_column 3 (st_metric "Churn Rate (%)" (CStr rate))].

(** A table of [n] rows whose churn flag is 1 on the first [k]. *)
Definition flags (k n : Z) : list Z :=
  replicate (Z.to_nat k) 1%Z ++ replicate (Z.to_nat (n - k)) 0%Z.

Definition flags_table (k n : Z) : DataFrame :=
  {| nrows := Z.to_nat n; columns := [("Exited", IntCol (flags k n))] |}.

(** A small table with every column the script looks at. *)
Definition sample_table : DataFrame :=
  {| nrows := 4;
     columns :=
       [("Exited", IntCol [1; 0; 0; 1]%Z);
        ("Gender", StrCol ["Female"; "Male"; "Male"; "Female"]);
        ("Age", IntCol [42; 31; 39; 50]%Z);
        ("CreditScore", IntCol [619; 608; 502; 699]%Z);
        ("AgeGroup", StrCol ["40-50"; "30-40"; "30-40"; "40-50"]);
        ("Card Type", StrCol ["GOLD"; "GOLD"; "SILVER"; "GOLD"]);
        ("EstimatedSalary",
         NumCol [Q2Qc (10134888 # 100); Q2Qc (5000050 # 100);
                 Q2Qc (70000 # 1); Q2Qc (30000 # 1)]);
        ("Tenure", IntCol [2; 1; 8; 1]%Z);
        ("CreditScoreCategory", StrCol ["Fair"; "Fair"; "Poor"; "Good"])] |}.

(** The same table as a file holds it, with the index columns. *)
Definition sample_file : DataFrame :=
  {| nrows := 4;
     columns := ("Unnamed: 0", IntCol [0; 1; 2; 3]%Z)
                :: ("RowNumber", IntCol [1; 2; 3; 4]%Z)
                :: columns sample_table |}.

Definition table_without_exited : DataFrame :=
  {| nrows := 2; columns := [("Gender", StrCol ["Female"; "Male"])] |}.

(** A table in which nobody has churned. *)
Definition table_none_churned : DataFrame :=
  {| nrows := 2;
     columns := [("Exited", IntCol [0; 0]%Z);
                 ("Card Type", StrCol ["GOLD"; "SILVER"]);
                 ("EstimatedSalary", IntCol [50000; 60000]%Z)] |}.

Definition sample_files : filesystem := λ path,
  if decide (path = "france_df.csv") then Some sample_file
  else if decide (path = "spain_df.csv") then Some table_without_exited
  else None.

Definition no_files : filesystem := λ _, None.




(** Number of charts a block puts on the page. *)
Definition charts_of {A} (m : script A) : nat :=
  length (filter (λ el, is_chart el = true) (emitted m)).

(** A block that draws one chart when [present] holds and is skipped
    otherwise, without an exception either way. *)
Definition gated_chart (present : bool) (m : script unit) : Prop :=
  ending m = Done tt ∧ if present then charts_of m = 1%nat else emitted m = [].

(** Rows a boolean mask selects. *)
Definition count_true (mask : list bool) : nat :=
  length (filter (λ b, b = true) mask).

(** A formatted number with its thousands separators taken out. *)
Definition not_comma (c : ascii) : bool := negb (Ascii.eqb c ","%char).

Definition strip_commas (s : string) : string :=
  string_of_list_ascii (List.filter not_comma (list_ascii_of_string s)).

Definition argmax_of_empty : exn :=
  ValueError "attempt to get argmax of an empty sequence".

End Props.

(* ===================================================================== *)
(** ** Runs of a script                                                   *)
(* ===================================================================== *)

Import Float64 Pandas Streamlit App Props.

Section RunFacts.
Context {E : Type}.

Lemma emitted_bind {A B} (m : run E A) (f : A → run E B) :
  emitted (m ≫= f) =
  emitted m ++ match ending m with Done a => emitted (f a) | _ => [] end.
Proof.
  unfold mbind, run_bind. destruct (ending m); simpl; by rewrite ?app_nil_r.
Qed.

Lemma ending_bind {A B} (m : run E A) (f : A → run E B) :
  ending (m ≫= f) =
  match ending m with
  | Done a => ending (f a)
  | Stopped => Stopped
  | Raised e => Raised e
  end.
Proof. unfold mbind, run_bind. by destruct (ending m). Qed.

Lemma bind_done {A B} (m : run E A) (f : A → run E B) a :
  ending m = Done a →
  m ≫= f = Run (emitted m ++ emitted (f a)) (ending (f a)).
Proof. intros H. unfold mbind, run_bind. by rewrite H. Qed.

Lemma bind_raised {A B} (m : run E A) (f : A → run E B) e :
  ending m = Raised e → m ≫= f = Run (emitted m) (Raised e).
Proof. intros H. unfold mbind, run_bind. by rewrite H. Qed.

Lemma bind_stopped {A B} (m : run E A) (f : A → run E B) :
  ending m = Stopped → m ≫= f = Run (emitted m) Stopped.
Proof. intros H. unfold mbind, run_bind. by rewrite H. Qed.

Lemma try_ok_bind {A B} (a : A) (f : A → run E B) : try (Ok a) ≫= f = f a.
Proof. unfold mbind, run_bind. simpl. by destruct (f a). Qed.

Lemma try_err_bind {A B} (e : exn) (f : A → run E B) :
  try (Err e) ≫= f = Run [] (Raised e).
Proof. reflexivity. Qed.

Lemma ret_bind {A B} (a : A) (f : A → run E B) : mret a ≫= f = f a.
Proof. unfold mbind, run_bind, mret, run_ret. simpl. by destruct (f a). Qed.

Lemma emit_bind {B} (e : E) (f : unit → run E B) :
  emit e ≫= f = Run (e :: emitted (f tt)) (ending (f tt)).
Proof. reflexivity. Qed.

Lemma all_emitted_bind {A B} (P : E → Prop) (m : run E A) (f : A → run E B) :
  all_emitted P m → (∀ a, all_emitted P (f a)) → all_emitted P (m ≫= f).
Proof.
  unfold all_emitted. intros Hm Hf. rewrite emitted_bind.
  apply Forall_app. split; [done|]. destruct (ending m); auto.
Qed.

Lemma all_emitted_emit (P : E → Prop) (e : E) : P e → all_emitted P (emit e).
Proof. intros. by repeat constructor. Qed.

Lemma all_emitted_ret {A} (P : E → Prop) (a : A) : all_emitted P (mret a : run E A).
Proof. constructor. Qed.

Lemma all_emitted_stop {A} (P : E → Prop) : all_emitted P (stop : run E A).
Proof. constructor. Qed.

Lemma all_emitted_try {A} (P : E → Prop) (r : result A) : all_emitted P (try r).
Proof. destruct r; constructor. Qed.

Lemma all_emitted_within {S A} (P : S * E → Prop) (s : S) (m : run E A) :
  all_emitted (λ e, P (s, e)) m → all_emitted P (within s m).
Proof. unfold all_emitted, within. simpl. intros H. by apply Forall_fmap. Qed.

End RunFacts.

Ltac all_emitted_step :=
  first
    [ progress cbv zeta
    | apply all_emitted_bind; [|intros ?]
    | apply all_emitted_try
    | apply all_emitted_ret
    | apply all_emitted_stop
    | apply all_emitted_emit; reflexivity
    | match goal with
      | |- all_emitted _ (if ?b then _ else _) => destruct b
      end ].

Ltac all_emitted_solve := repeat all_emitted_step.

(** Run the script forward over the calls whose outcome is known. *)
Ltac run_forward :=
  repeat first
    [ rewrite try_ok_bind
    | rewrite try_err_bind
    | rewrite ret_bind
    | rewrite emit_bind
    | progress cbv beta zeta
    | progress cbn [emitted ending try] ].

(* ===================================================================== *)
(** ** The loader and its cache                                           *)
(* ===================================================================== *)

Section Loader.
Variables fs fs' : filesystem.

Lemma cache_data_hit body arg s df :
  cache s !! arg = Some df → cache_data body arg s = (Ok df, s).
Proof. intros H. unfold cache_data. by rewrite H. Qed.

Lemma cache_data_stores body arg s df s1 :
  cache_data body arg s = (Ok df, s1) → cache s1 !! arg = Some df.
Proof.
  unfold cache_data. destruct (cache s !! arg) as [d|] eqn:Hc.
  - intros [= <- <-]. done.
  - destruct (body arg) as [files [d|e]]; intros [= <- <-]; simpl.
    apply lookup_insert_eq.
Qed.

(** C7. Once [load_country_data] has returned a table for one of the
    three countries, a second call with that country returns the same
    table and leaves the session as it was: the cached value is served and
    no file is read, whatever is on disk by then. *)
Theorem load_twice_same_table country s df s1 :
  country ∈ countries →
  load_country_data fs country s = (Ok df, s1) →
  load_country_data fs' country s1 = (Ok df, s1) ∧ reads (snd (load_country_data fs' country s1)) = reads s1.
Proof.
  intros _ H. unfold load_country_data in *.
  apply cache_data_stores in H.
  rewrite (cache_data_hit _ _ _ _ H). done.
Qed.

End Loader.

(* ===================================================================== *)
(** ** The required column                                                *)
(* ===================================================================== *)

Lemma render_table_without_exited country df :
  has_column "Exited" df = false →
  render_table country df = Run [exited_missing_message] Stopped.
Proof.
  intros H. unfold render_table, churn_column_check. rewrite H.
  reflexivity.
Qed.

(** C2. When the table has no [Exited] column, rendering it ends by
    [st.stop()] right after the error message: the message is the only
    element rendered for the table, with no metric, chart, panel or later
    section; and what the page held before the check is still there, in
    front of the message. *)
Theorem missing_exited_halts country df (above : page unit) :
  has_column "Exited" df = false →
  ending above = Done tt →
  render_table country df = Run [exited_missing_message] Stopped
  ∧ (above;; render_table country df)
    = Run (emitted above ++ [exited_missing_message]) Stopped.
Proof.
  intros Hno Habove.
  rewrite (bind_done above _ tt Habove).
  by rewrite (render_table_without_exited country df Hno).
Qed.

(* ===================================================================== *)
(** ** Input widgets                                                      *)
(* ===================================================================== *)

Lemma filter_none {A} (f : A → bool) (l : list A) :
  Forall (λ x, f x = false) l → filter (λ x, f x = true) l = [].
Proof.
  induction 1 as [|x l Hx _ IH]; [done|].
  rewrite filter_cons. destruct (decide (f x = true)); [congruence|done].
Qed.

Lemma render_table_no_widgets country df :
  all_emitted (λ be, is_input_widget be.2 = false) (render_table country df).
Proof.
  unfold render_table.
  repeat (apply all_emitted_bind; [apply all_emitted_within|intros ?]).
  all: try apply all_emitted_within.
  all: unfold churn_column_check, overview, metrics, churn_distribution,
         churn_by_gender, churn_by_age, churn_by_credit_score,
         salary_by_age_group, salary_by_age_group_and_card, churn_breakdown,
         churn_by_tenure, churn_by_credit_score_category, insights, connect, faq.
  all: all_emitted_solve.
Qed.

(** X21. Every run of the script ends at line 31, whatever the files,
    the selections and the cache hold: the selectbox created there repeats
    the one of line 13 and is refused.  The page holds what lines 6-13
    rendered; the loader is not called and the session is left as it
    was; nothing of the dashboard is rendered. *)
Theorem app_ends_at_line_31 fs choice1 choice2 s :
  app fs choice1 choice2 s
  = (Run above_the_loader (Raised (DuplicateElementId "selectbox")), s).
Proof. reflexivity. Qed.

(** C9. In every run exactly one user input widget is created: the
    country selectbox of the sidebar, offering France, Germany and Spain
    (the second call, on line 31, is refused and creates nothing).  No
    block below the loader creates an input widget, whatever the table. *)
Theorem one_selectbox_per_run fs choice1 choice2 s :
  input_widgets (emitted (fst (app fs choice1 choice2 s)))
  = [(Sidebar, st_sidebar_selectbox "Choose a country" ["France"; "Germany"; "Spain"])]
  ∧ ∀ country df, input_widgets (emitted (render_table country df)) = [].
Proof.
  split; [reflexivity|].
  intros country df. apply (filter_none (λ be, is_input_widget be.2)).
  apply render_table_no_widgets.
Qed.

(* ===================================================================== *)
(** ** Columns of a filtered table                                        *)
(* ===================================================================== *)

Lemma lookup_filter_rows name mask df :
  lookup_column name (columns (filter_rows mask df)) =
  select_column mask <$> lookup_column name (columns df).
Proof.
  unfold filter_rows. simpl. induction (columns df) as [|[n c] cols IH]; [done|].
  simpl. destruct (decide (n = name)); [done|apply IH].
Qed.

Lemma has_column_filter_rows name mask df :
  has_column name (filter_rows mask df) = has_column name df.
Proof.
  unfold has_column. rewrite lookup_filter_rows.
  by destruct (lookup_column name (columns df)).
Qed.

Lemma has_column_true name df :
  has_column name df = true → ∃ c, lookup_column name (columns df) = Some c.
Proof. unfold has_column. destruct (lookup_column _ _); naive_solver. Qed.

Lemma has_column_false name df :
  has_column name df = false → lookup_column name (columns df) = None.
Proof. unfold has_column. by destruct (lookup_column _ _). Qed.

Lemma select_no_true {A} (mask : list bool) (xs : list A) :
  true ∉ mask → select mask xs = [].
Proof.
  revert xs. induction mask as [|b mask IH]; intros xs H; [done|].
  destruct xs as [|x xs]; [done|]. simpl.
  destruct b; [exfalso; apply H; left|].
  apply IH. intros ?. apply H. by right.
Qed.

Lemma value_counts_no_rows mask c :
  true ∉ mask → value_counts (select_column mask c) = [].
Proof.
  intros H. destruct c; unfold value_counts; simpl;
    by rewrite select_no_true.
Qed.

(* ===================================================================== *)
(** ** The grouped bar chart and the insights panel without a salary      *)
(* ===================================================================== *)

(** X15. On every table with [AgeGroup] and [Card Type] and without
    [EstimatedSalary], the grouped bar block renders its heading and then
    raises KeyError('Column not found: EstimatedSalary'), the exception of
    selecting a missing column from a groupby. *)
Lemma grouped_bar_without_salary df :
  has_column "AgeGroup" df = true →
  has_column "Card Type" df = true →
  has_column "EstimatedSalary" df = false →
  salary_by_age_group_and_card df =
  Run [st_markdown "### Avg Estimated Salary by Age Group & Card Type"]
      (Raised (KeyError "Column not found: EstimatedSalary")).
Proof.
  intros Ha Hc Hs. unfold salary_by_age_group_and_card. rewrite Ha, Hc. simpl.
  apply has_column_true in Ha as [a Ha]. apply has_column_true in Hc as [c Hc].
  apply has_column_false in Hs.
  unfold grouped_df, groupby_mean, groupby_getitem, getitem.
  rewrite Ha, Hc, Hs. reflexivity.
Qed.

(** X16. On every table with [Exited] and without [EstimatedSalary], the
    insights block renders its heading and then raises
    KeyError('EstimatedSalary'); the panel is not rendered. *)
Lemma insights_without_salary country df churn_rate :
  has_column "Exited" df = true →
  has_column "EstimatedSalary" df = false →
  insights country df churn_rate =
  Run [st_markdown "##  Key Findings & Insights"] (Raised (KeyError "EstimatedSalary")).
Proof.
  intros He Hs. unfold insights, getitem.
  apply has_column_true in He as [ex He]. rewrite He.
  run_forward.
  unfold avg_salary, getitem. rewrite !lookup_filter_rows.
  apply has_column_false in Hs. rewrite Hs. reflexivity.
Qed.

(** C1. On a table with [Exited], [AgeGroup] and [Card Type] and without
    [EstimatedSalary], the gate of the grouped bar chart (line 87) lets
    the block run: its heading is rendered, and the pre-aggregation of
    line 89 raises KeyError('Column not found: EstimatedSalary'); the run
    ends there. *)
Theorem grouped_bar_gate_misses_salary :
  has_column "AgeGroup" table_without_salary = true
  ∧ has_column "Card Type" table_without_salary = true
  ∧ has_column "EstimatedSalary" table_without_salary = false
  ∧ ending (render_table "France" table_without_salary)
    = Raised (KeyError "Column not found: EstimatedSalary")
  ∧ last (emitted (render_table "France" table_without_salary))
    = Some (SalaryByAgeGroupAndCard,
            st_markdown "### Avg Estimated Salary by Age Group & Card Type").
Proof. repeat split; vm_compute; reflexivity. Qed.

(** C4. On a table with [Exited] and without [EstimatedSalary] the
    insights block renders its heading and then raises
    KeyError('EstimatedSalary') at line 131: the salary fields have no
    placeholder, and the panel is not rendered. *)
Theorem insights_salary_unguarded :
  has_column "EstimatedSalary" table_exited_only = false
  ∧ ending (render_table "France" table_exited_only)
    = Raised (KeyError "EstimatedSalary")
  ∧ last (emitted (render_table "France" table_exited_only))
    = Some (Insights, st_markdown "##  Key Findings & Insights").
Proof. repeat split; vm_compute; reflexivity. Qed.

(** C10. When no row of the table has [Exited = 1], the most frequent
    card type and age group among churned customers are not the
    placeholder: with the column present, [idxmax] of the empty value
    counts raises ValueError, and the insights block ends in an
    exception after its heading, with no panel. *)
Theorem no_churned_rows_raises country df churn_rate exited :
  getitem df "Exited" = Ok exited →
  true ∉ eq_scalar exited 1 →
  has_column "Card Type" df = true ∨ has_column "AgeGroup" df = true →
  let churned := filter_rows (eq_scalar exited 1) df in
  (has_column "Card Type" df = true →
   most_common churned "Card Type" = Err argmax_of_empty)
  ∧ (has_column "AgeGroup" df = true →
     most_common churned "AgeGroup" = Err argmax_of_empty)
  ∧ emitted (insights country df churn_rate)
    = [st_markdown "##  Key Findings & Insights"]
  ∧ ∃ e, ending (insights country df churn_rate) = Raised e.
Proof.
  intros Hex Hnone Hcol churned.
  assert (Hmc : ∀ name, has_column name df = true →
                        most_common churned name = Err argmax_of_empty).
  { intros name H. unfold most_common, churned.
    rewrite has_column_filter_rows, H. unfold getitem.
    rewrite lookup_filter_rows.
    apply has_column_true in H as [c ->]. simpl.
    by rewrite value_counts_no_rows. }
  split; [auto|]. split; [auto|].
  unfold insights. rewrite Hex. run_forward. fold churned.
  destruct (avg_salary churned) as [x|e]; run_forward; [|by eauto].
  destruct (avg_salary (filter_rows (eq_scalar exited 0) df)) as [y|e];
    run_forward; [|by eauto].
  destruct (has_column "Card Type" df) eqn:Hc.
  - rewrite (Hmc "Card Type"%string Hc). run_forward. by eauto.
  - destruct Hcol as [?|Ha]; [congruence|].
    destruct (most_common churned "Card Type") as [t|e];
      run_forward; [|by eauto].
    rewrite (Hmc "AgeGroup"%string Ha). run_forward. by eauto.
Qed.

(* ===================================================================== *)
(** ** Association lists                                                  *)
(* ===================================================================== *)

Section Assoc.
Context {K V : Type} `{EqDecision K}.
Implicit Types (l : list (K * V)) (k : K) (v : V).

Lemma assoc_get_None k l : assoc_get k l = None ↔ k ∉ l.*1.
Proof.
  induction l as [|[k' v'] l IH]; simpl.
  - split; [intros _; apply not_elem_of_nil|done].
  - rewrite not_elem_of_cons. destruct (decide (k = k')) as [->|Hne].
    + split; [done|]. by intros [? _].
    + rewrite IH. split; [done|]. by intros [_ ?].
Qed.

Lemma assoc_get_is_Some k l : is_Some (assoc_get k l) ↔ k ∈ l.*1.
Proof.
  rewrite <-not_eq_None_Some, assoc_get_None.
  destruct (decide (k ∈ l.*1)); naive_solver.
Qed.

Lemma assoc_get_elem k v l :
  NoDup l.*1 → (k, v) ∈ l ↔ assoc_get k l = Some v.
Proof.
  induction l as [|[k' v'] l IH]; simpl; intros Hnd.
  - split; [by intros ?%elem_of_nil|done].
  - apply NoDup_cons in Hnd as [Hk' Hnd]. rewrite elem_of_cons, IH by done.
    destruct (decide (k = k')) as [->|Hne].
    + split.
      * intros [[= ->]|Hget]; [done|].
        exfalso. apply Hk', assoc_get_is_Some. eauto.
      * intros [= ->]. by left.
    + split; [intros [[= ? ?]|?]; [done|done]|by right].
Qed.

End Assoc.

(* ===================================================================== *)
(** ** Value counts                                                       *)
(* ===================================================================== *)

Lemma count_of_snoc x y xs :
  count_of y (xs ++ [x]) = (count_of y xs + if decide (y = x) then 1 else 0)%nat.
Proof.
  unfold count_of. rewrite filter_app, length_app. f_equal.
  rewrite filter_cons, filter_nil.
  repeat case_decide; subst; done.
Qed.

Lemma count_of_pos x xs : (0 < count_of x xs)%nat ↔ x ∈ xs.
Proof.
  unfold count_of. induction xs as [|y xs IH].
  - simpl. split; [lia|by intros ?%elem_of_nil].
  - rewrite filter_cons, elem_of_cons. destruct (decide (y = x)) as [->|Hne]; simpl.
    + split; [by left|lia].
    + rewrite IH. split; [by right|]. by intros [->|?].
Qed.

Lemma tally_keys x acc :
  (tally x acc).*1 = if decide (x ∈ acc.*1) then acc.*1 else acc.*1 ++ [x].
Proof.
  induction acc as [|[y n] acc IH]; [done|].
  cbn [tally fmap list_fmap fst].
  destruct (decide (x = y)) as [->|Hne]; cbn [fmap list_fmap fst].
  - rewrite decide_True by left. done.
  - rewrite IH. destruct (decide (x ∈ acc.*1)) as [Hin|Hin].
    + rewrite decide_True by (by right). done.
    + rewrite decide_False; [done|]. by apply not_elem_of_cons.
Qed.

Lemma NoDup_tally x acc : NoDup acc.*1 → NoDup (tally x acc).*1.
Proof.
  intros H. rewrite tally_keys. destruct (decide (x ∈ acc.*1)); [done|].
  apply NoDup_app. split_and!; [done| |apply NoDup_singleton].
  intros y Hy ->%list_elem_of_singleton. done.
Qed.

Lemma get_tally x y acc :
  assoc_get y (tally x acc) =
  if decide (y = x) then Some (S (default 0%nat (assoc_get x acc)))
  else assoc_get y acc.
Proof.
  induction acc as [|[z n] acc IH]; cbn [tally assoc_get].
  - destruct (decide (y = x)); done.
  - destruct (decide (x = z)) as [->|Hxz]; cbn [assoc_get].
    + destruct (decide (y = z)); done.
    + destruct (decide (y = z)) as [->|Hyz].
      * by rewrite decide_False by congruence.
      * apply IH.
Qed.

Lemma sum_tally x acc : sum_list (tally x acc).*2 = S (sum_list acc.*2).
Proof.
  induction acc as [|[y n] acc IH]; [done|].
  cbn [tally]. destruct (decide (x = y)); cbn [fmap list_fmap snd sum_list sum_list_with];
    [done|].
  rewrite IH. lia.
Qed.

Lemma tally_of_step seen acc x :
  tally_of seen acc → tally_of (seen ++ [x]) (tally x acc).
Proof.
  intros (Hnd & Hsum & Hget). split_and!.
  - by apply NoDup_tally.
  - rewrite sum_tally, Hsum, length_app. simpl. lia.
  - intros y. rewrite get_tally, count_of_snoc.
    destruct (decide (y = x)) as [->|Hne].
    + rewrite Hget. destruct (decide (count_of x seen = 0%nat)) as [->|]; simpl.
      * done.
      * rewrite decide_False by lia. f_equal. lia.
    + rewrite Hget, Nat.add_0_r. done.
Qed.

Lemma tally_of_fold xs seen acc :
  tally_of seen acc →
  tally_of (seen ++ xs) (fold_left (λ acc x, tally x acc) xs acc).
Proof.
  revert seen acc. induction xs as [|x xs IH]; intros seen acc H; simpl.
  - by rewrite app_nil_r.
  - replace (seen ++ x :: xs) with ((seen ++ [x]) ++ xs)
      by (by rewrite <-app_assoc).
    apply IH. by apply tally_of_step.
Qed.

Lemma counts_in_order_spec xs : tally_of xs (counts_in_order xs).
Proof.
  apply (tally_of_fold xs [] []). split_and!; [constructor|done|done].
Qed.

Lemma insert_by_count_perm p l : insert_by_count p l ≡ₚ p :: l.
Proof.
  induction l as [|q l IH]; [done|]. cbn [insert_by_count].
  destruct (q.2 <? p.2)%nat; [done|]. rewrite IH. apply Permutation_swap.
Qed.

Lemma sort_by_count_perm l : sort_by_count l ≡ₚ l.
Proof.
  unfold sort_by_count.
  cut (∀ acc, fold_left (λ acc p, insert_by_count p acc) l acc ≡ₚ acc ++ l).
  { intros H. apply (H []). }
  induction l as [|p l IH]; intros acc; cbn [fold_left].
  - by rewrite app_nil_r.
  - rewrite IH, insert_by_count_perm. apply Permutation_middle.
Qed.

Lemma insert_by_count_sorted p l :
  StronglySorted more_frequent l → StronglySorted more_frequent (insert_by_count p l).
Proof.
  induction 1 as [|q l Hl IH Hq]; cbn [insert_by_count]; [repeat constructor|].
  destruct (q.2 <? p.2)%nat eqn:Hlt.
  - apply Nat.ltb_lt in Hlt. constructor; [by constructor|].
    constructor; [unfold more_frequent; lia|].
    eapply Forall_impl; [exact Hq|]. unfold more_frequent. intros; lia.
  - apply Nat.ltb_ge in Hlt. constructor; [done|].
    rewrite insert_by_count_perm. by constructor.
Qed.

Lemma sort_by_count_sorted l : StronglySorted more_frequent (sort_by_count l).
Proof.
  unfold sort_by_count.
  cut (∀ acc, StronglySorted more_frequent acc →
              StronglySorted more_frequent
                (fold_left (λ acc p, insert_by_count p acc) l acc)).
  { intros H. apply H. constructor. }
  induction l as [|p l IH]; intros acc Hacc; cbn [fold_left]; [done|].
  by apply IH, insert_by_count_sorted.
Qed.

Lemma value_counts_perm c : value_counts c ≡ₚ counts_in_order (cells c).
Proof. apply sort_by_count_perm. Qed.

(** An entry of [value_counts] is a value of the column with the number of
    its occurrences. *)
Lemma elem_of_value_counts c y n :
  (y, n) ∈ value_counts c ↔ n = count_of y (cells c) ∧ (0 < n)%nat.
Proof.
  rewrite value_counts_perm.
  destruct (counts_in_order_spec (cells c)) as (Hnd & _ & Hget).
  rewrite assoc_get_elem, Hget by done.
  destruct (decide (count_of y (cells c) = 0%nat)); split;
    [done|lia|intros [= <-]; lia|intros [-> _]; done].
Qed.

Lemma NoDup_value_counts c : NoDup (value_counts c).*1.
Proof.
  rewrite value_counts_perm. apply counts_in_order_spec.
Qed.

Lemma sum_value_counts c : sum_list (value_counts c).*2 = col_length c.
Proof.
  rewrite value_counts_perm. apply counts_in_order_spec.
Qed.

(* ===================================================================== *)
(** ** The churn breakdown pie                                            *)
(* ===================================================================== *)

Lemma well_formed_col_length df name c :
  well_formed df = true →
  lookup_column name (columns df) = Some c →
  col_length c = nrows df.
Proof.
  unfold well_formed. intros [Hall _]%andb_true_iff.
  induction (columns df) as [|[n c'] cols IH]; [done|].
  cbn [forallb] in Hall. apply andb_true_iff in Hall as [Hc Hall].
  cbn [lookup_column]. destruct (decide (n = name)).
  - intros [= <-]. by apply Nat.eqb_eq in Hc.
  - by apply IH.
Qed.

Lemma count_of_CInt v xs : count_of (CInt v) (CInt <$> xs) = occurrences v xs.
Proof.
  unfold count_of, occurrences. induction xs as [|x xs IH]; [done|].
  rewrite fmap_cons, !filter_cons.
  destruct (decide (x = v)) as [->|Hne].
  - rewrite decide_True by done. simpl. by rewrite IH.
  - rewrite decide_False by congruence. done.
Qed.

Lemma elem_of_rename mapping counts label n :
  (label, n) ∈ rename mapping counts ↔
  ∃ c, (c, n) ∈ counts ∧ label = rename_label mapping c.
Proof.
  unfold rename. rewrite list_elem_of_fmap. split.
  - intros [[c m] [[= -> ->] Hin]]. eauto.
  - intros (c & Hin & ->). by exists (c, n).
Qed.

Lemma rename_names mapping counts :
  (rename mapping counts).*1 = rename_label mapping <$> counts.*1.
Proof. unfold rename. induction counts as [|[c n] l IH]; [done|]. simpl. by f_equal. Qed.

Lemma rename_values mapping counts : (rename mapping counts).*2 = counts.*2.
Proof. unfold rename. induction counts as [|[c n] l IH]; [done|]. simpl. by f_equal. Qed.

(** The churn breakdown block, taken alone, renders its heading and one
    pie whose names and values are the value counts of [Exited] with 0
    renamed to Retained and 1 to Churned. *)
Lemma churn_breakdown_pie df xs :
  well_formed df = true →
  getitem df "Exited" = Ok (IntCol xs) →
  Forall (λ x, x = 0 ∨ x = 1)%Z xs →
  ∃ values names,
    churn_breakdown df =
      Run [st_markdown "### Churn Breakdown";
           st_plotly_chart (Pie values names "Churn vs Retention") true] (Done tt)
    ∧ zip names values =
      rename [(0, "Retained"); (1, "Churned")]%Z (value_counts (IntCol xs))
    ∧ (∀ label n,
         (label, n) ∈ zip names values ↔
         (label = CStr "Retained" ∧ n = occurrences 0 xs ∧ (0 < n)%nat)
         ∨ (label = CStr "Churned" ∧ n = occurrences 1 xs ∧ (0 < n)%nat))
    ∧ NoDup names
    ∧ sum_list values = nrows df.
Proof.
  intros Hwf Hex Hbin.
  exists (churn_counts (IntCol xs)).*2, (churn_counts (IntCol xs)).*1.
  assert (Hentry : ∀ c n, (c, n) ∈ value_counts (IntCol xs) →
            (c = CInt 0 ∨ c = CInt 1)
            ∧ ∃ v, c = CInt v ∧ n = occurrences v xs ∧ (0 < n)%nat).
  { intros c n [-> Hpos]%elem_of_value_counts.
    pose proof Hpos as Hin. apply count_of_pos in Hin. simpl in Hin.
    apply list_elem_of_fmap in Hin as (v & -> & Hv).
    rewrite Forall_forall in Hbin. split.
    - destruct (Hbin v Hv) as [->| ->]; auto.
    - exists v. cbn [cells] in *. rewrite count_of_CInt in *. done. }
  split_and!.
  - unfold churn_breakdown. rewrite Hex. reflexivity.
  - by rewrite zip_fst_snd.
  - intros label n. rewrite zip_fst_snd. unfold churn_counts.
    rewrite elem_of_rename. split.
    + intros (c & Hin & ->). destruct (Hentry c n Hin) as [Hc (v & Hv & Hn & Hpos)].
      destruct Hc as [-> | ->]; injection Hv as <-; [left|right]; done.
    + intros [(-> & -> & Hpos)|(-> & -> & Hpos)].
      * exists (CInt 0). split; [|done]. apply elem_of_value_counts.
        simpl. by rewrite count_of_CInt.
      * exists (CInt 1). split; [|done]. apply elem_of_value_counts.
        simpl. by rewrite count_of_CInt.
  - unfold churn_counts. rewrite rename_names.
    apply NoDup_fmap_2_strong; [|apply NoDup_value_counts].
    intros c1 c2 [[c1' n1] [-> H1]]%list_elem_of_fmap
                 [[c2' n2] [-> H2]]%list_elem_of_fmap.
    destruct (Hentry _ _ H1) as [[Hc1|Hc1] _], (Hentry _ _ H2) as [[Hc2|Hc2] _];
      simpl in *; subst; done.
  - unfold churn_counts. rewrite rename_values, sum_value_counts.
    unfold getitem in Hex.
    destruct (lookup_column "Exited" (columns df)) as [c|] eqn:Hc; [|done].
    injection Hex as ->. by eapply well_formed_col_length.
Qed.

(* ===================================================================== *)
(** ** Removing the Tenure column                                         *)
(* ===================================================================== *)

Lemma lookup_without_other names name df :
  name ∉ names →
  lookup_column name (columns (without_columns names df)) =
  lookup_column name (columns df).
Proof.
  intros Hn. unfold without_columns. cbn [columns].
  induction (columns df) as [|[n c] cols IH]; [done|].
  rewrite filter_cons. cbn [fst lookup_column].
  destruct (decide (n ∉ names)) as [Hin|Hin]; cbn [lookup_column].
  - rewrite IH. done.
  - rewrite IH. destruct (decide (n = name)) as [->|]; [done|done].
Qed.

Lemma lookup_without_dropped names name df :
  name ∈ names → lookup_column name (columns (without_columns names df)) = None.
Proof.
  intros Hn. unfold without_columns. cbn [columns].
  induction (columns df) as [|[n c] cols IH]; [done|].
  rewrite filter_cons. cbn [fst].
  destruct (decide (n ∉ names)) as [Hin|Hin]; [|done].
  cbn [lookup_column]. destruct (decide (n = name)) as [->|]; done.
Qed.

Lemma lookup_without_tenure name df :
  name ≠ "Tenure"%string →
  lookup_column name (columns (without_columns ["Tenure"%string] df)) =
  lookup_column name (columns df).
Proof. intros H. apply lookup_without_other. by intros ?%list_elem_of_singleton. Qed.

Lemma filter_rows_without mask names df :
  filter_rows mask (without_columns names df) =
  without_columns names (filter_rows mask df).
Proof.
  unfold filter_rows, without_columns. cbn [nrows columns]. f_equal.
  induction (columns df) as [|[n c] cols IH]; [done|].
  rewrite fmap_cons, !filter_cons. cbn [fst].
  destruct (decide (n ∉ names)); [rewrite fmap_cons|]; by rewrite IH.
Qed.

Ltac without_tenure :=
  unfold has_column, getitem, px_histogram, px_box, px_column, grouped_df,
    groupby_mean, groupby_getitem, most_common, avg_salary, has_column, getitem;
  rewrite ?filter_rows_without;
  rewrite ?lookup_without_tenure by done;
  try reflexivity.

Section WithoutTenure.
Variable df : DataFrame.
Let df' := without_columns ["Tenure"%string] df.

Lemma check_without_tenure : churn_column_check df' = churn_column_check df.
Proof. unfold churn_column_check, df'. without_tenure. Qed.

Lemma metrics_without_tenure : metrics df' = metrics df.
Proof. unfold metrics, df'. without_tenure. Qed.

Lemma distribution_without_tenure : churn_distribution df' = churn_distribution df.
Proof. unfold churn_distribution, df'. without_tenure. Qed.

Lemma gender_without_tenure : churn_by_gender df' = churn_by_gender df.
Proof. unfold churn_by_gender, df'. without_tenure. Qed.

Lemma age_without_tenure : churn_by_age df' = churn_by_age df.
Proof. unfold churn_by_age, df'. without_tenure. Qed.

Lemma credit_score_without_tenure : churn_by_credit_score df' = churn_by_credit_score df.
Proof. unfold churn_by_credit_score, df'. without_tenure. Qed.

Lemma salary_box_without_tenure : salary_by_age_group df' = salary_by_age_group df.
Proof. unfold salary_by_age_group, df'. without_tenure. Qed.

Lemma salary_bar_without_tenure :
  salary_by_age_group_and_card df' = salary_by_age_group_and_card df.
Proof. unfold salary_by_age_group_and_card, df'. without_tenure. Qed.

Lemma breakdown_without_tenure : churn_breakdown df' = churn_breakdown df.
Proof. unfold churn_breakdown, df'. without_tenure. Qed.

Lemma category_without_tenure :
  churn_by_credit_score_category df' = churn_by_credit_score_category df.
Proof. unfold churn_by_credit_score_category, df'. without_tenure. Qed.

Lemma insights_without_tenure country churn_rate :
  insights country df' churn_rate = insights country df churn_rate.
Proof.
  unfold insights, df', getitem. rewrite lookup_without_tenure by done.
  destruct (lookup_column "Exited" (columns df)) as [exited|]; [|reflexivity].
  run_forward. without_tenure.
Qed.

Lemma tenure_without_tenure : churn_by_tenure df' = Run [] (Done tt).
Proof.
  unfold churn_by_tenure, has_column, df'.
  rewrite lookup_without_dropped by (by apply list_elem_of_singleton). done.
Qed.

End WithoutTenure.

Section SameElsewhere.

Lemma same_elsewhere_refl {A} (m : page A) : same_elsewhere m m.
Proof. done. Qed.

Lemma same_elsewhere_bind {A B} (m m' : page A) (f f' : A → page B) :
  same_elsewhere m m' →
  (∀ a, same_elsewhere (f a) (f' a)) →
  same_elsewhere (m ≫= f) (m' ≫= f').
Proof.
  intros [Hem Hen] Hf. unfold same_elsewhere, other_sections in *.
  rewrite !emitted_bind, !ending_bind, !filter_app, Hem, Hen.
  destruct (ending m') as [a| |e]; [|done|done].
  destruct (Hf a) as [-> ->]. done.
Qed.

Lemma other_sections_tenure {A} (m : script A) :
  other_sections (emitted (within ChurnByTenure m)) = [].
Proof.
  unfold other_sections, within. cbn [emitted].
  induction (emitted m) as [|e l IH]; [done|].
  rewrite fmap_cons, filter_cons. cbn. done.
Qed.

Lemma tenure_block_done df :
  has_column "Exited" df = true → ending (churn_by_tenure df) = Done tt.
Proof.
  intros [ex Hex]%has_column_true. unfold churn_by_tenure.
  destruct (has_column "Tenure" df) eqn:Ht; [|done].
  apply has_column_true in Ht as [t Ht].
  unfold px_histogram, px_column. rewrite Ht, Hex. reflexivity.
Qed.

Lemma within_other_block {A} (s t : block) (m : script A) :
  s ≠ t → all_emitted (λ be, be.1 ≠ t) (within s m).
Proof.
  intros Hne. unfold all_emitted, within. cbn [emitted].
  apply Forall_fmap, Forall_forall. by intros.
Qed.

End SameElsewhere.

Lemma render_table_same_elsewhere country df :
  has_column "Exited" df = true →
  same_elsewhere (render_table country (without_columns ["Tenure"%string] df))
                 (render_table country df).
Proof.
  intros Hex. unfold render_table.
  rewrite check_without_tenure, metrics_without_tenure,
    distribution_without_tenure, gender_without_tenure, age_without_tenure,
    credit_score_without_tenure, salary_box_without_tenure,
    salary_bar_without_tenure, breakdown_without_tenure,
    category_without_tenure, tenure_without_tenure.
  repeat (apply same_elsewhere_bind; [try apply same_elsewhere_refl|intros ?]).
  - done.
  - split; [by rewrite !other_sections_tenure|].
    cbn [within ending]. by rewrite tenure_block_done.
  - rewrite insights_without_tenure. apply same_elsewhere_refl.
  - apply same_elsewhere_refl.
Qed.

(** C8. Take a table with [Exited] and remove its [Tenure] column.  The
    run on the result renders nothing in the tenure block, ends as the run
    on the original table does, and puts the same elements on the page in
    every other block (the metrics, the other charts, the pie, the
    insights panel, the links and the FAQ), the table preview apart. *)
Theorem tenure_removal_frame country df :
  has_column "Exited" df = true →
  let df' := without_columns ["Tenure"%string] df in
  has_column "Tenure" df' = false
  ∧ all_emitted (λ be, be.1 ≠ ChurnByTenure) (render_table country df')
  ∧ other_sections (emitted (render_table country df'))
    = other_sections (emitted (render_table country df))
  ∧ ending (render_table country df') = ending (render_table country df).
Proof.
  intros Hex df'. split_and!.
  - unfold has_column, df'.
    by rewrite lookup_without_dropped by (by apply list_elem_of_singleton).
  - unfold render_table.
    repeat (apply all_emitted_bind; [|intros ?]).
    all: try (by apply within_other_block).
    unfold df'. rewrite tenure_without_tenure. constructor.
  - by destruct (render_table_same_elsewhere country df Hex).
  - by destruct (render_table_same_elsewhere country df Hex).
Qed.

(* ===================================================================== *)
(** ** The churn breakdown on the page                                    *)
(* ===================================================================== *)

Lemma block_elements_within {A} (b : block) (m : script A) :
  block_elements b (emitted (within b m)) = emitted (within b m).
Proof.
  unfold block_elements, within. cbn [emitted].
  induction (emitted m) as [|e l IH]; [done|].
  rewrite fmap_cons, filter_cons, decide_True by done. by rewrite IH.
Qed.

Lemma block_elements_none {A} (b : block) (m : page A) :
  all_emitted (λ be, be.1 ≠ b) m → block_elements b (emitted m) = [].
Proof.
  unfold all_emitted, block_elements.
  induction 1 as [|be l Hbe _ IH]; [done|].
  by rewrite filter_cons, decide_False.
Qed.

(** A block that ends normally and is not [b] adds nothing to [b]. *)
Lemma block_elements_skip {A B} (b s : block) (m : script A) (f : A → page B) a :
  s ≠ b → ending m = Done a →
  block_elements b (emitted (within s m ≫= f)) = block_elements b (emitted (f a)).
Proof.
  intros Hne Hm. rewrite emitted_bind. cbn [within ending]. rewrite Hm.
  unfold block_elements at 1. rewrite filter_app.
  fold (block_elements b (emitted (within s m))).
  by rewrite (block_elements_none b (within s m)) by (by apply within_other_block).
Qed.

Lemma block_elements_here {A B} (b : block) (m : script A) (f : A → page B) :
  (∀ a, all_emitted (λ be, be.1 ≠ b) (f a)) →
  block_elements b (emitted (within b m ≫= f)) = emitted (within b m).
Proof.
  intros Hf. rewrite emitted_bind. unfold block_elements at 1. rewrite filter_app.
  fold (block_elements b (emitted (within b m))). rewrite block_elements_within.
  destruct (ending (within b m)) as [a| |e]; rewrite ?filter_nil, ?app_nil_r; [|done..].
  fold (block_elements b (emitted (f a))). rewrite block_elements_none by done.
  by rewrite app_nil_r.
Qed.

Lemma charts_above_pie_done df :
  has_column "Exited" df = true →
  ending (churn_distribution df) = Done tt
  ∧ ending (churn_by_gender df) = Done tt
  ∧ ending (churn_by_age df) = Done tt
  ∧ ending (churn_by_credit_score df) = Done tt
  ∧ ending (salary_by_age_group df) = Done tt.
Proof.
  intros [ex Hex]%has_column_true.
  unfold churn_distribution, churn_by_gender, churn_by_age, churn_by_credit_score,
    salary_by_age_group.
  unfold px_histogram, px_box, px_column, getitem. rewrite Hex.
  split_and!; try reflexivity.
  - destruct (has_column "Gender" df) eqn:H; [|done].
    apply has_column_true in H as [c ->]. reflexivity.
  - destruct (has_column "Age" df) eqn:H; [|done].
    apply has_column_true in H as [c ->]. reflexivity.
  - destruct (has_column "CreditScore" df) eqn:H; [|done].
    apply has_column_true in H as [c ->]. reflexivity.
  - destruct (has_column "AgeGroup" df) eqn:H1; [|done].
    destruct (has_column "EstimatedSalary" df) eqn:H2; [|done].
    apply has_column_true in H1 as [c1 ->]. apply has_column_true in H2 as [c2 ->].
    reflexivity.
Qed.

(** X22. On a well-formed table whose [Exited] column holds only 0 and 1,
    when the grouped bar block above it has not raised, the page shows the
    churn breakdown: its heading and one pie, whatever other columns the
    table has.  The pie's names and values are the value counts of
    [Exited] with 0 renamed to Retained and 1 to Churned: a slice per
    value that occurs, sized by the number of its occurrences; no name is
    repeated, and the values add up to the number of rows. *)
Theorem pie_matches_value_counts country df xs :
  well_formed df = true →
  getitem df "Exited" = Ok (IntCol xs) →
  Forall (λ x, x = 0 ∨ x = 1)%Z xs →
  ending (salary_by_age_group_and_card df) = Done tt →
  ∃ values names,
    block_elements ChurnBreakdown (emitted (render_table country df)) =
      [(ChurnBreakdown, st_markdown "### Churn Breakdown");
       (ChurnBreakdown, st_plotly_chart (Pie values names "Churn vs Retention") true)]
    ∧ (∀ label n,
         (label, n) ∈ zip names values ↔
         (label = CStr "Retained" ∧ n = occurrences 0 xs ∧ (0 < n)%nat)
         ∨ (label = CStr "Churned" ∧ n = occurrences 1 xs ∧ (0 < n)%nat))
    ∧ NoDup names
    ∧ sum_list values = nrows df.
Proof.
  intros Hwf Hex Hflags Hbar.
  destruct (churn_breakdown_pie df xs Hwf Hex Hflags)
    as (values & names & Hpie & _ & Hslices & Hnd & Hsum).
  exists values, names. split_and!; [|done..].
  assert (Hhas : has_column "Exited" df = true).
  { unfold has_column, getitem in *. by destruct (lookup_column "Exited" (columns df)). }
  destruct (charts_above_pie_done df Hhas) as (H1 & H2 & H3 & H4 & H5).
  assert (Hm : ∃ rate, ending (metrics df) = Done rate).
  { unfold metrics. rewrite Hex. run_forward. eauto. }
  destruct Hm as [rate Hm].
  assert (Hcheck : ending (churn_column_check df) = Done tt)
    by (unfold churn_column_check; by rewrite Hhas).
  assert (Hover : ending (overview country df) = Done tt) by reflexivity.
  unfold render_table.
  rewrite (block_elements_skip _ _ _ _ tt) by done.
  rewrite (block_elements_skip _ _ _ _ tt) by done.
  rewrite (block_elements_skip _ _ _ _ rate) by done.
  do 6 (rewrite (block_elements_skip _ _ _ _ tt) by done).
  rewrite block_elements_here.
  - by rewrite Hpie.
  - intros _.
    repeat (apply all_emitted_bind; [by apply within_other_block|intros ?]).
    by apply within_other_block.
Qed.

Lemma pie_matches_value_counts_witness :
  ∃ values names,
    block_elements ChurnBreakdown (emitted (render_table "France" sample_table)) =
      [(ChurnBreakdown, st_markdown "### Churn Breakdown");
       (ChurnBreakdown, st_plotly_chart (Pie values names "Churn vs Retention") true)]
    ∧ (∀ label n,
         (label, n) ∈ zip names values ↔
         (label = CStr "Retained" ∧ n = occurrences 0 [1; 0; 0; 1]%Z ∧ (0 < n)%nat)
         ∨ (label = CStr "Churned" ∧ n = occurrences 1 [1; 0; 0; 1]%Z ∧ (0 < n)%nat))
    ∧ NoDup names
    ∧ sum_list values = nrows sample_table.
Proof.
  apply (pie_matches_value_counts "France" sample_table [1; 0; 0; 1]%Z).
  - reflexivity.
  - reflexivity.
  - repeat first [apply Forall_nil_2 | apply Forall_cons_2; [lia|]].
  - vm_compute. reflexivity.
Defined.

(** C5. A table with an [Exited] column of zeros and ones for which no
    pie is rendered: it has [AgeGroup] and [Card Type] and no
    [EstimatedSalary], so the run ends in the grouped bar block (line 89),
    above the churn breakdown.  The page has no element of the churn
    breakdown block and no pie. *)
Theorem pie_not_reached_without_salary :
  well_formed table_without_salary = true
  ∧ getitem table_without_salary "Exited" = Ok (IntCol [1; 0]%Z)
  ∧ ending (render_table "France" table_without_salary)
    = Raised (KeyError "Column not found: EstimatedSalary")
  ∧ block_elements ChurnBreakdown (emitted (render_table "France" table_without_salary))
    = []
  ∧ filter (λ be, is_pie be.2 = true) (emitted (render_table "France" table_without_salary))
    = [].
Proof. split_and!; vm_compute; reflexivity. Qed.

(* ===================================================================== *)
(** ** Rounding                                                           *)
(* ===================================================================== *)

Section Rounding.
Local Open Scope Z_scope.

(** [rne a b] is within one half of [a / b]. *)
Lemma rne_bound a b : 0 < b → 2 * Z.abs (rne a b * b - a) <= b.
Proof.
  intros Hb. unfold rne.
  pose proof (Z.div_mod a b ltac:(lia)) as Hdm.
  pose proof (Z.mod_pos_bound a b Hb) as Hr.
  destruct (2 * (a mod b) <? b) eqn:H1; [apply Z.ltb_lt in H1; nia|].
  apply Z.ltb_ge in H1.
  destruct (b <? 2 * (a mod b)) eqn:H2; [apply Z.ltb_lt in H2; nia|].
  apply Z.ltb_ge in H2.
  destruct (Z.even (a / b)); nia.
Qed.

Lemma rne_lower a b c : 0 < b → c * b <= a → c <= rne a b.
Proof.
  intros Hb Hc. unfold rne.
  assert (c <= a / b) by (apply Z.div_le_lower_bound; lia).
  repeat match goal with |- context [if ?x then _ else _] => destruct x end; lia.
Qed.

Lemma rne_upper a b c : 0 < b → a <= c * b → rne a b <= c.
Proof.
  intros Hb Hc. unfold rne.
  pose proof (Z.div_mod a b ltac:(lia)) as Hdm.
  pose proof (Z.mod_pos_bound a b Hb) as Hr.
  assert (a / b <= c) by (apply Z.div_le_upper_bound; lia).
  destruct (2 * (a mod b) <? b) eqn:H1; [lia|].
  apply Z.ltb_ge in H1.
  assert (a / b < c) by nia.
  repeat match goal with |- context [if ?x then _ else _] => destruct x end; lia.
Qed.

(** An exact quotient is not changed. *)
Lemma rne_exact c b : 0 < b → rne (c * b) b = c.
Proof.
  intros Hb. apply Z.le_antisymm; [apply rne_upper|apply rne_lower]; lia.
Qed.

Lemma scaled_pos a b e n d :
  0 < a → 0 < b → scaled a b e = (n, d) → 0 < n ∧ 0 < d.
Proof.
  intros Ha Hb. unfold scaled.
  destruct (0 <=? e) eqn:He; intros [= <- <-].
  - apply Z.leb_le in He. split; [done|]. apply Z.mul_pos_pos; [done|].
    by apply Z.pow_pos_nonneg.
  - apply Z.leb_gt in He. split; [|done]. apply Z.mul_pos_pos; [done|].
    apply Z.pow_pos_nonneg; lia.
Qed.

(** Lowering the exponent by one doubles the scaled quotient. *)
Lemma scaled_pred a b e n d n' d' :
  0 < b →
  scaled a b e = (n, d) → scaled a b (e - 1) = (n', d') →
  n' * d = 2 * n * d'.
Proof.
  intros Hb. unfold scaled.
  destruct (0 <=? e) eqn:He; destruct (0 <=? e - 1) eqn:He';
    intros [= <- <-] [= <- <-].
  - apply Z.leb_le in He, He'.
    replace e with (e - 1 + 1) at 1 by lia.
    rewrite Z.pow_add_r by lia. change (2 ^ 1) with 2. ring.
  - apply Z.leb_le in He. apply Z.leb_gt in He'.
    assert (e = 0) as -> by lia.
    change (- (0 - 1)) with 1. change (2 ^ 1) with 2. change (2 ^ 0) with 1. ring.
  - apply Z.leb_gt in He. apply Z.leb_le in He'. lia.
  - apply Z.leb_gt in He, He'.
    replace (- (e - 1)) with (- e + 1) by lia.
    rewrite Z.pow_add_r by lia. change (2 ^ 1) with 2. ring.
Qed.

Lemma scaled_first_guess a b n d :
  0 < a → 0 < b →
  scaled a b (Z.log2 a - Z.log2 b - 52) = (n, d) →
  2 ^ 51 * d < n < 2 ^ 53 * d.
Proof.
  intros Ha Hb.
  pose proof (Z.log2_spec a Ha) as [Ha1 Ha2].
  pose proof (Z.log2_spec b Hb) as [Hb1 Hb2].
  pose proof (Z.log2_nonneg a) as Hla. pose proof (Z.log2_nonneg b) as Hlb.
  rewrite <-Z.add_1_r in Ha2, Hb2.
  rewrite Z.pow_add_r in Ha2, Hb2 by lia. change (2 ^ 1) with 2 in *.
  set (la := Z.log2 a) in *. set (lb := Z.log2 b) in *.
  unfold scaled. destruct (0 <=? la - lb - 52) eqn:He; intros [= <- <-].
  - apply Z.leb_le in He.
    assert (Hla' : 2 ^ la = 2 ^ (la - lb - 52) * 2 ^ lb * 2 ^ 52).
    { rewrite <-!Z.pow_add_r by lia. f_equal. lia. }
    assert (0 < 2 ^ (la - lb - 52)) by (apply Z.pow_pos_nonneg; lia).
    assert (0 < 2 ^ lb) by (apply Z.pow_pos_nonneg; lia).
    change (2 ^ 51) with 2251799813685248.
    change (2 ^ 52) with 4503599627370496 in *.
    change (2 ^ 53) with 9007199254740992. nia.
  - apply Z.leb_gt in He.
    assert (Hlb' : 2 ^ la * 2 ^ (- (la - lb - 52)) = 2 ^ lb * 2 ^ 52).
    { rewrite <-!Z.pow_add_r by lia. f_equal. lia. }
    assert (0 < 2 ^ (- (la - lb - 52))) by (apply Z.pow_pos_nonneg; lia).
    assert (0 < 2 ^ lb) by (apply Z.pow_pos_nonneg; lia).
    change (2 ^ 51) with 2251799813685248.
    change (2 ^ 52) with 4503599627370496 in *.
    change (2 ^ 53) with 9007199254740992. nia.
Qed.

(** The quotient scaled by the chosen exponent has exactly 53 bits. *)
Lemma ulp_exp_spec a b n d :
  0 < a → 0 < b →
  scaled a b (ulp_exp a b) = (n, d) →
  0 < d ∧ 2 ^ 52 * d <= n < 2 ^ 53 * d.
Proof.
  intros Ha Hb. unfold ulp_exp.
  destruct (scaled a b (Z.log2 a - Z.log2 b - 52)) as [n0 d0] eqn:H0.
  pose proof (scaled_first_guess a b n0 d0 Ha Hb H0) as Hg.
  pose proof (scaled_pos a b _ n0 d0 Ha Hb H0) as [Hn0 Hd0].
  destruct (n0 <? d0 * 2 ^ 52) eqn:Hlt; intros Hs.
  - apply Z.ltb_lt in Hlt.
    pose proof (scaled_pos a b _ n d Ha Hb Hs) as [Hn Hd].
    pose proof (scaled_pred a b _ n0 d0 n d Hb H0 Hs) as Heq.
    change (2 ^ 51) with 2251799813685248 in *.
    change (2 ^ 52) with 4503599627370496 in *.
    change (2 ^ 53) with 9007199254740992 in *.
    split; [done|]. nia.
  - apply Z.ltb_ge in Hlt. rewrite H0 in Hs. injection Hs as <- <-.
    split; [done|]. lia.
Qed.

End Rounding.

Section ChurnRate.
Local Open Scope Z_scope.

(** A positive quotient rounds to a 53-bit mantissa within half a unit in
    the last place. *)
Lemma round_pos_spec a b :
  0 < a → 0 < b →
  ∃ m e, round_pos a b = Fin m e ∧ 2 ^ 52 <= m < 2 ^ 53 ∧ half_ulp m e a b.
Proof.
  intros Ha Hb. unfold round_pos, half_ulp.
  destruct (scaled a b (ulp_exp a b)) as [n d] eqn:Hs.
  destruct (ulp_exp_spec a b n d Ha Hb Hs) as [Hd [Hlo Hhi]].
  pose proof (rne_bound n d Hd) as Hnear.
  pose proof (rne_lower n d (2 ^ 52) Hd ltac:(lia)) as Hm1.
  pose proof (rne_upper n d (2 ^ 53) Hd ltac:(lia)) as Hm2.
  destruct (rne n d =? 2 ^ 53) eqn:Htop.
  - apply Z.eqb_eq in Htop. rewrite Htop in Hnear.
    exists (2 ^ 52), (ulp_exp a b + 1). split; [done|]. split; [done|].
    destruct (scaled a b (ulp_exp a b + 1)) as [n' d'] eqn:Hs'.
    pose proof (scaled_pos a b _ n' d' Ha Hb Hs') as [Hn' Hd'].
    pose proof (scaled_pred a b (ulp_exp a b + 1) n' d' n d Hb Hs') as Heq.
    replace (ulp_exp a b + 1 - 1) with (ulp_exp a b) in Heq by lia.
    specialize (Heq Hs).
    change (2 ^ 52) with 4503599627370496 in *.
    change (2 ^ 53) with 9007199254740992 in *.
    nia.
  - apply Z.eqb_neq in Htop.
    exists (rne n d), (ulp_exp a b). rewrite Hs. split; [done|]. split; [lia|done].
Qed.

(** The mean of a 0/1 column with [k] ones among [n] values. *)
Lemma mean_of_flags k n :
  0 < k <= n →
  ∃ m p, of_ratio k n = Fin m (- p) ∧ 0 < p ∧ 2 ^ 52 <= m
         ∧ 2 * Z.abs (m * n - k * 2 ^ p) <= n.
Proof.
  intros [Hk Hkn]. unfold of_ratio.
  rewrite (proj2 (Z.leb_gt n 0)) by lia.
  rewrite (proj2 (Z.eqb_neq k 0)) by lia.
  rewrite (proj2 (Z.ltb_lt 0 k)) by lia.
  destruct (round_pos_spec k n) as (m & e & -> & [Hm _] & Hnear); [lia..|].
  unfold half_ulp, scaled in Hnear.
  destruct (0 <=? e) eqn:He.
  - apply Z.leb_le in He.
    assert (1 <= 2 ^ e) by (pose proof (Z.pow_pos_nonneg 2 e); lia).
    change (2 ^ 52) with 4503599627370496 in *. exfalso. nia.
  - apply Z.leb_gt in He. exists m, (- e).
    rewrite Z.opp_involutive. split_and!; [done|lia|done|done].
Qed.

Lemma of_Z_100 : of_Z 100 = Fin 7036874417766400 (-46).
Proof. reflexivity. Qed.

(** Multiplying such a mean by 100. *)
Lemma times_100 m p :
  0 < p → 2 ^ 52 <= m <= 2 ^ p →
  ∃ m' p', mul (Fin m (- p)) (of_Z 100) = Fin m' (- p') ∧ 0 < p' ∧ 2 ^ 52 <= m'
           ∧ 2 * Z.abs (m' * 2 ^ p - 100 * m * 2 ^ p') <= 2 ^ p.
Proof.
  intros Hp [Hm1 Hm2]. rewrite of_Z_100. unfold mul, scaled.
  rewrite (proj2 (Z.leb_le 0 (- (- p + -46)))) by lia.
  replace (- (- p + -46)) with (p + 46) by lia.
  rewrite Z.pow_add_r by lia.
  change (2 ^ 46) with 70368744177664.
  assert (Hpp : 0 < 2 ^ p) by (apply Z.pow_pos_nonneg; lia).
  unfold of_ratio.
  rewrite (proj2 (Z.leb_gt _ 0)) by lia.
  rewrite (proj2 (Z.eqb_neq _ 0)) by (change (2 ^ 52) with 4503599627370496 in *; lia).
  rewrite (proj2 (Z.ltb_lt 0 _))
    by (change (2 ^ 52) with 4503599627370496 in *; lia).
  destruct (round_pos_spec (m * 7036874417766400) (1 * (2 ^ p * 70368744177664)))
    as (m' & e & -> & [Hm' _] & Hnear);
    [change (2 ^ 52) with 4503599627370496 in *; lia..|].
  unfold half_ulp, scaled in Hnear.
  change (2 ^ 52) with 4503599627370496 in *.
  destruct (0 <=? e) eqn:He.
  - apply Z.leb_le in He.
    assert (1 <= 2 ^ e) by (pose proof (Z.pow_pos_nonneg 2 e); lia).
    exfalso. nia.
  - apply Z.leb_gt in He. exists m', (- e).
    rewrite Z.opp_involutive.
    assert (0 < 2 ^ (- e)) by (apply Z.pow_pos_nonneg; lia).
    split_and!; [done|lia|done|].
    replace (m' * (1 * (2 ^ p * 70368744177664)) - m * 7036874417766400 * 2 ^ (- e))
      with (70368744177664 * (m' * 2 ^ p - 100 * m * 2 ^ (- e))) in Hnear by ring.
    rewrite Z.abs_mul in Hnear. change (Z.abs 70368744177664) with 70368744177664 in Hnear.
    nia.
Qed.

(** The hundredths printed for a positive binary64 below one. *)
Lemma fixed_digits_2 m p :
  0 < m → 0 < p →
  2 * Z.abs (fixed_digits 2 m (- p) * 2 ^ p - 100 * m) <= 2 ^ p.
Proof.
  intros Hm Hp. unfold fixed_digits, scaled.
  rewrite Z.opp_involutive. rewrite (proj2 (Z.leb_le 0 p)) by lia.
  rewrite (Z.abs_eq m) by lia. change (10 ^ 2) with 100.
  assert (0 < 2 ^ p) by (apply Z.pow_pos_nonneg; lia).
  pose proof (rne_bound (m * 100) (1 * 2 ^ p) ltac:(lia)) as Hb.
  replace (1 * 2 ^ p) with (2 ^ p) in * by lia.
  replace (100 * m) with (m * 100) by lia. done.
Qed.


End ChurnRate.
Section ThreeRoundings.
Local Open Scope Z_scope.

Lemma abs_half_bound x y : 2 * Z.abs x <= y ↔ - y <= 2 * x <= y.
Proof. lia. Qed.

(** Three roundings (the quotient, the product by 100, the two printed
    decimals) still land on a hundredth nearest to [100 k / n]. *)
Lemma three_roundings k n m1 P1 m2 P2 D :
  0 < k <= n → n <= 2 ^ 37 →
  2 ^ 52 <= m1 → 2 ^ 52 <= m2 → 0 < P1 → 0 < P2 →
  2 * Z.abs (m1 * n - k * P1) <= n →
  2 * Z.abs (m2 * P1 - 100 * m1 * P2) <= P1 →
  2 * Z.abs (D * P2 - 100 * m2) <= P2 →
  2 * Z.abs (D * n - 10000 * k) <= n.
Proof.
  intros [Hk Hkn] Hn Hm1 Hm2 HP1 HP2 H1 H2 H3.
  change (2 ^ 52) with 4503599627370496 in *.
  change (2 ^ 37) with 137438953472 in *.
  apply abs_half_bound in H1, H2, H3. apply abs_half_bound.
  set (x := D * n - 10000 * k).
  set (u := D * P2 - 100 * m2) in *.
  set (v := m2 * P1 - 100 * m1 * P2) in *.
  set (w := m1 * n - k * P1) in *.
  assert (Hid : x * (P1 * P2) = n * P1 * u + 100 * n * v + 10000 * P2 * w)
    by (unfold x, u, v, w; ring).
  assert (Hm1P : m1 <= P1).
  { assert (2 * m1 * n <= (2 * P1 + 1) * n) by (unfold w in H1; nia).
    assert (2 * m1 <= 2 * P1 + 1) by (apply (Z.mul_le_mono_pos_r _ _ n); lia).
    lia. }
  assert (Hm2P : m2 <= 100 * P2).
  { assert (100 * m1 * P2 <= 100 * P1 * P2) by nia.
    assert (2 * m2 * P1 <= (200 * P2 + 1) * P1) by (unfold v in H2; nia).
    assert (2 * m2 <= 200 * P2 + 1) by (apply (Z.mul_le_mono_pos_r _ _ P1); lia).
    lia. }
  clearbody x u v w.
  assert (Hu : - (n * P1 * P2) <= 2 * (n * P1 * u) <= n * P1 * P2).
  { assert (0 <= n * P1) by nia. nia. }
  assert (Hv : - (100 * n * P1) <= 2 * (100 * n * v) <= 100 * n * P1).
  { assert (0 <= 100 * n) by lia. nia. }
  assert (Hw : - (10000 * P2 * n) <= 2 * (10000 * P2 * w) <= 10000 * P2 * n).
  { assert (0 <= 10000 * P2) by lia. nia. }
  assert (Hsmall : 100 * n * P1 + 10000 * P2 * n < P1 * P2).
  { assert (H100 : 200 * (100 * n * P1) <= 100 * P2 * P1) by nia.
    assert (H10k : 200 * (10000 * P2 * n) < 100 * (P1 * P2)) by nia.
    nia. }
  set (Q := P1 * P2) in *.
  assert (HQ : 0 < Q) by (unfold Q; nia).
  assert (Hx : - (n * Q) - Q < 2 * x * Q < n * Q + Q).
  { replace (2 * x * Q) with (2 * (x * Q)) by ring. rewrite Hid.
    replace (n * P1 * P2) with (n * Q) in Hu by (unfold Q; ring). lia. }
  clear - Hx HQ. split.
  - assert (- n - 1 < 2 * x); [|lia].
    apply (Z.mul_lt_mono_pos_r Q); [done|]. lia.
  - assert (2 * x < n + 1); [|lia].
    apply (Z.mul_lt_mono_pos_r Q); [done|]. lia.
Qed.

End ThreeRoundings.

(* ===================================================================== *)
(** ** The grouped mean                                                   *)
(* ===================================================================== *)












Section WholeNumbers.
Local Open Scope Z_scope.

















End WholeNumbers.












(* ===================================================================== *)
(** ** The churn rate metric                                              *)
(* ===================================================================== *)

Section ChurnRateMetric.
Local Open Scope Z_scope.

Lemma Zsum_flags xs :
  Forall (λ x, x = 0 ∨ x = 1) xs → Zsum xs = Z.of_nat (occurrences 1 xs).
Proof.
  unfold occurrences. induction 1 as [|x xs Hx _ IH]; [done|].
  cbn [Zsum foldr]. fold (Zsum xs). rewrite IH, filter_cons.
  destruct Hx as [-> | ->].
  - rewrite decide_False by done. lia.
  - rewrite decide_True by done. cbn [length]. lia.
Qed.

Lemma occurrences_le v xs : (occurrences v xs ≤ length xs)%nat.
Proof. apply length_filter. Qed.

Lemma metrics_of_flags df xs :
  getitem df "Exited" = Ok (IntCol xs) →
  Forall (λ x, x = 0 ∨ x = 1) xs →
  let k := Z.of_nat (occurrences 1 xs) in
  let n := Z.of_nat (length xs) in
  metrics df = Run (metrics_shown (Z.of_nat (nrows df)) k (churn_rate_text k n))
                   (Done (churn_rate_of k n)).
Proof.
  intros Hex Hflags k n. unfold metrics. rewrite Hex. run_forward.
  cbn [series_sum series_mean]. rewrite (Zsum_flags xs Hflags). reflexivity.
Qed.

(** The printed churn rate is a hundredth nearest to [100 k / n]. *)
Lemma churn_rate_text_nearest k n :
  0 <= k <= n → 0 < n <= 2 ^ 37 →
  ∃ D, churn_rate_text k n = show_hundredths D
       ∧ 0 <= D ∧ 2 * Z.abs (D * n - 10000 * k) <= n.
Proof.
  intros [Hk Hkn] [Hn Hn37]. unfold churn_rate_text, churn_rate_of.
  destruct (Z.eq_dec k 0) as [->|Hk0].
  - exists 0. unfold of_ratio. rewrite (proj2 (Z.leb_gt n 0)) by lia.
    split; [reflexivity|]. lia.
  - destruct (mean_of_flags k n) as (m1 & p1 & -> & Hp1 & Hm1 & H1); [lia|].
    assert (0 < 2 ^ p1) by (apply Z.pow_pos_nonneg; lia).
    assert (Hm1P : m1 <= 2 ^ p1).
    { apply abs_half_bound in H1.
      assert (2 * m1 * n <= (2 * 2 ^ p1 + 1) * n) by nia.
      assert (2 * m1 <= 2 * 2 ^ p1 + 1)
        by (apply (Z.mul_le_mono_pos_r _ _ n); lia).
      lia. }
    destruct (times_100 m1 p1) as (m2 & p2 & -> & Hp2 & Hm2 & H2); [lia|lia|].
    assert (0 < 2 ^ p2) by (apply Z.pow_pos_nonneg; lia).
    change (2 ^ 52) with 4503599627370496 in Hm2.
    exists (fixed_digits 2 m2 (- p2)).
    pose proof (fixed_digits_2 m2 p2 ltac:(lia) Hp2) as H3.
    split_and!.
    + unfold format_2f, sign_prefix. by rewrite (proj2 (Z.ltb_ge m2 0)) by lia.
    + unfold fixed_digits, scaled. rewrite Z.opp_involutive.
      rewrite (proj2 (Z.leb_le 0 p2)) by lia.
      apply (rne_lower _ _ 0); lia.
    + apply (three_roundings k n m1 (2 ^ p1) m2 (2 ^ p2)); try done; try lia.
Qed.

End ChurnRateMetric.

(** C3. For a well-formed table of 1 to 2^37 rows whose [Exited] column
    holds only 0 and 1, the metrics block shows the row count, the number
    [k] of ones, and as churn rate the text of a count of hundredths [D]
    (its integer part, a point, two digits) nearest to the exact rate:
    |D / 100 - 100 k / n| <= 1 / 200, either neighbour when the rate lies
    halfway between two hundredths.  With 1000 rows of which 203 have
    churned the text is 20.30. *)
Theorem churn_rate_two_decimals df xs :
  well_formed df = true →
  getitem df "Exited" = Ok (IntCol xs) →
  Forall (λ x, x = 0 ∨ x = 1)%Z xs →
  (0 < Z.of_nat (nrows df) <= 2 ^ 37)%Z →
  let n := Z.of_nat (nrows df) in
  let k := Z.of_nat (occurrences 1%Z xs) in
  ∃ D rate,
    metrics df = Run (metrics_shown n k (show_hundredths D)) (Done rate)
    ∧ (0 <= D)%Z
    ∧ (2 * Z.abs (D * n - 10000 * k) <= n)%Z
    ∧ (n = 1000%Z → k = 203%Z → show_hundredths D = "20.30"%string).
Proof.
  intros Hwf Hex Hflags Hn n k.
  assert (Hlen : length xs = nrows df).
  { unfold getitem in Hex.
    destruct (lookup_column "Exited" (columns df)) as [c|] eqn:Hc; [|done].
    injection Hex as ->.
    pose proof (well_formed_col_length df _ _ Hwf Hc) as Hl.
    unfold col_length in Hl. simpl in Hl. by rewrite length_fmap in Hl. }
  pose proof (occurrences_le 1%Z xs) as Hle.
  destruct (churn_rate_text_nearest k n) as (D & Htext & HD & Hnear);
    [unfold k, n; lia|done|].
  exists D, (churn_rate_of k n). split_and!; [|done|done|].
  - rewrite (metrics_of_flags df xs Hex Hflags), Hlen. fold n k.
    by rewrite Htext.
  - intros Hn1000 Hk203. rewrite Hn1000, Hk203 in Hnear.
    assert (D = 2030%Z) as -> by lia. reflexivity.
Qed.

(* ===================================================================== *)
(** ** The statements at concrete tables                                  *)
(* ===================================================================== *)

Lemma missing_exited_halts_witness :
  has_column "Exited" table_without_exited = false
  ∧ render_table "Spain" table_without_exited = Run [exited_missing_message] Stopped
  ∧ (within Page page_header;; render_table "Spain" table_without_exited)
    = Run [(Page, st_set_page_config "Bank Customer Churn Dashboard" "wide");
           (Page, st_title "🏦 Bank Customer Churn Dashboard");
           exited_missing_message] Stopped.
Proof.
  split; [reflexivity|].
  apply (missing_exited_halts "Spain" table_without_exited (within Page page_header));
    reflexivity.
Defined.

Lemma churn_rate_two_decimals_witness :
  ∃ D rate,
    metrics sample_table = Run (metrics_shown 4 2 (show_hundredths D)) (Done rate)
    ∧ (0 <= D)%Z
    ∧ (2 * Z.abs (D * 4 - 10000 * 2) <= 4)%Z
    ∧ (4%Z = 1000%Z → 2%Z = 203%Z → show_hundredths D = "20.30"%string).
Proof.
  apply (churn_rate_two_decimals sample_table [1; 0; 0; 1]%Z).
  - reflexivity.
  - reflexivity.
  - repeat first [apply Forall_nil_2 | apply Forall_cons_2; [lia|]].
  - simpl. lia.
Defined.

Lemma load_twice_same_table_witness :
  let first := load_country_data sample_files "France" empty_session in
  fst first = Ok sample_table
  ∧ load_country_data no_files "France" (snd first) = (Ok sample_table, snd first).
Proof.
  intros first.
  assert (H1 : fst first = Ok sample_table) by (vm_compute; reflexivity).
  split; [exact H1|].
  assert (H : first = (Ok sample_table, snd first))
    by (rewrite <-H1; apply surjective_pairing).
  apply (load_twice_same_table sample_files no_files "France" empty_session
           sample_table (snd first)).
  - apply list_elem_of_here.
  - exact H.
Defined.

Lemma tenure_removal_frame_witness :
  has_column "Exited" sample_table = true
  ∧ has_column "Tenure" (without_columns ["Tenure"%string] sample_table) = false
  ∧ other_sections
      (emitted (render_table "France" (without_columns ["Tenure"%string] sample_table)))
    = other_sections (emitted (render_table "France" sample_table)).
Proof.
  split; [reflexivity|].
  destruct (tenure_removal_frame "France" sample_table eq_refl) as (H1 & _ & H3 & _).
  split; [exact H1|exact H3].
Defined.

Lemma no_churned_rows_raises_witness :
  most_common (filter_rows (eq_scalar (IntCol [0; 0]%Z) 1) table_none_churned) "Card Type"
  = Err argmax_of_empty
  ∧ emitted (insights "France" table_none_churned NaN)
    = [st_markdown "##  Key Findings & Insights"].
Proof.
  destruct (no_churned_rows_raises "France" table_none_churned NaN (IntCol [0; 0]%Z))
    as (Hcard & _ & Hem & _).
  - reflexivity.
  - intros H. apply elem_of_cons in H as [H|H]; [by vm_compute in H|].
    apply elem_of_cons in H as [H|H]; [by vm_compute in H|].
    by apply elem_of_nil in H.
  - left. reflexivity.
  - split; [apply Hcard; reflexivity|exact Hem].
Defined.

(* ===================================================================== *)
(** ** Ties, and tables beyond 2^37 rows                                  *)
(* ===================================================================== *)

Section FlagsTable.
Local Open Scope Z_scope.
Variables k n : Z.
Hypothesis Hkn : 0 <= k <= n.

Lemma flags_length : length (flags k n) = Z.to_nat n.
Proof. unfold flags. rewrite length_app, !length_replicate. lia. Qed.

Lemma flags_binary : Forall (λ x, x = 0 ∨ x = 1) (flags k n).
Proof.
  unfold flags. apply Forall_app. split; apply Forall_replicate; auto.
Qed.

Lemma occurrences_replicate_same v m : occurrences v (replicate m v) = m.
Proof.
  unfold occurrences. induction m as [|m IH]; [done|].
  cbn [replicate]. rewrite filter_cons, decide_True by done. cbn [length]. by rewrite IH.
Qed.

Lemma occurrences_replicate_other v w m : v ≠ w → occurrences v (replicate m w) = 0%nat.
Proof.
  intros Hne. unfold occurrences. induction m as [|m IH]; [done|].
  cbn [replicate]. rewrite filter_cons, decide_False by congruence. done.
Qed.

Lemma flags_ones : occurrences 1 (flags k n) = Z.to_nat k.
Proof.
  unfold flags, occurrences. rewrite filter_app, length_app.
  fold (occurrences 1 (replicate (Z.to_nat k) 1)).
  fold (occurrences 1 (replicate (Z.to_nat (n - k)) 0)).
  rewrite occurrences_replicate_same, occurrences_replicate_other by done. lia.
Qed.

Lemma flags_table_getitem : getitem (flags_table k n) "Exited" = Ok (IntCol (flags k n)).
Proof. reflexivity. Qed.

Lemma flags_table_well_formed : well_formed (flags_table k n) = true.
Proof.
  unfold well_formed, flags_table. cbn [columns nrows forallb snd fst fmap list_fmap].
  unfold col_length. cbn [cells]. rewrite length_fmap, flags_length, Nat.eqb_refl.
  apply andb_true_iff. split; [done|]. apply bool_decide_eq_true, NoDup_singleton.
Qed.

Lemma flags_table_metrics :
  metrics (flags_table k n)
  = Run (metrics_shown n k (churn_rate_text k n)) (Done (churn_rate_of k n)).
Proof.
  rewrite (metrics_of_flags _ _ flags_table_getitem flags_binary).
  rewrite flags_ones, flags_length. cbn [nrows flags_table].
  by rewrite !Z2Nat.id by lia.
Qed.

End FlagsTable.

(** C3, as stated with the rate formatted to two decimals.  A table of
    4000 rows of which 23 have churned: the rate is 0.575 per cent
    exactly, which to two decimals is 0.58 (rounding the tie up, or to the
    even digit), and the metric shows 0.57: the binary64 product
    [mean * 100] lies just below 0.575. *)
Lemma churn_rate_tie_shown_low :
  let k := 23%Z in
  let n := 4000%Z in
  well_formed (flags_table k n) = true
  ∧ getitem (flags_table k n) "Exited" = Ok (IntCol (flags k n))
  ∧ Forall (λ x, x = 0 ∨ x = 1)%Z (flags k n)
  ∧ Z.of_nat (nrows (flags_table k n)) = n
  ∧ Z.of_nat (occurrences 1%Z (flags k n)) = k
  ∧ (∃ rate, metrics (flags_table k n) = Run (metrics_shown n k "0.57") (Done rate))
  ∧ (1000 * (100 * k) = 575 * n)%Z
  ∧ rne (10000 * k) n = 58%Z
  ∧ ((10000 * k + n / 2) / n)%Z = 58%Z
  ∧ show_hundredths 58 = "0.58"%string.
Proof.
  intros k n.
  assert (Hkn : (0 <= k <= n)%Z) by (unfold k, n; lia).
  assert (Htext : churn_rate_text k n = "0.57"%string) by (vm_compute; reflexivity).
  split_and!.
  - by apply flags_table_well_formed.
  - apply flags_table_getitem.
  - apply flags_binary.
  - cbn [nrows flags_table]. rewrite Z2Nat.id; lia.
  - rewrite flags_ones by done. rewrite Z2Nat.id; lia.
  - exists (churn_rate_of k n). rewrite flags_table_metrics by done. by rewrite Htext.
  - reflexivity.
  - reflexivity.
  - reflexivity.
  - reflexivity.
Qed.

(** Beyond 2^37 rows the three roundings can move the printed hundredth
    away from the nearest one.  A table of 136084109213599 rows of which
    5463776984926 have churned: the exact rate lies just above 4.015 per
    cent, so that to two decimals it is 4.02, and the metric shows 4.01. *)
Lemma churn_rate_off_by_a_hundredth :
  let k := 5463776984926%Z in
  let n := 136084109213599%Z in
  well_formed (flags_table k n) = true
  ∧ getitem (flags_table k n) "Exited" = Ok (IntCol (flags k n))
  ∧ Forall (λ x, x = 0 ∨ x = 1)%Z (flags k n)
  ∧ Z.of_nat (nrows (flags_table k n)) = n
  ∧ Z.of_nat (occurrences 1%Z (flags k n)) = k
  ∧ (∃ rate, metrics (flags_table k n) = Run (metrics_shown n k "4.01") (Done rate))
  ∧ (2 * Z.abs (402 * n - 10000 * k) < n)%Z
  ∧ ¬ (2 * Z.abs (401 * n - 10000 * k) <= n)%Z.
Proof.
  intros k n.
  assert (Hkn : (0 <= k <= n)%Z) by (unfold k, n; lia).
  assert (Htext : churn_rate_text k n = "4.01"%string) by (vm_compute; reflexivity).
  split_and!.
  - by apply flags_table_well_formed.
  - apply flags_table_getitem.
  - apply flags_binary.
  - cbn [nrows flags_table]. rewrite Z2Nat.id; lia.
  - rewrite flags_ones by done. rewrite Z2Nat.id; lia.
  - exists (churn_rate_of k n). rewrite flags_table_metrics by done. by rewrite Htext.
  - unfold k, n. lia.
  - unfold k, n. lia.
Qed.

(* ===================================================================== *)
(** ** The optional charts                                                *)
(* ===================================================================== *)

Ltac gate_chart :=
  unfold gated_chart, charts_of, px_histogram, px_box, px_column, getitem;
  repeat match goal with
    | H : has_column _ _ = true |- _ => apply has_column_true in H as [? H]; rewrite ?H
    end;
  split; reflexivity.

(** X14. On a table with [Exited], each of the five blocks of lines 63-84
    and 103-107 draws exactly one chart when the columns its gate names
    are present and emits nothing otherwise; none of them raises.  The
    block of lines 109-122 emits nothing and does not raise when
    [CreditScoreCategory] is absent. *)
Theorem optional_charts_gated df :
  has_column "Exited" df = true →
  gated_chart (has_column "Gender" df) (churn_by_gender df)
  ∧ gated_chart (has_column "Age" df) (churn_by_age df)
  ∧ gated_chart (has_column "CreditScore" df) (churn_by_credit_score df)
  ∧ gated_chart (has_column "AgeGroup" df && has_column "EstimatedSalary" df)
      (salary_by_age_group df)
  ∧ gated_chart (has_column "Tenure" df) (churn_by_tenure df)
  ∧ (has_column "CreditScoreCategory" df = false →
     churn_by_credit_score_category df = Run [] (Done tt)).
Proof.
  intros Hex. split_and!.
  - unfold churn_by_gender.
    destruct (has_column "Gender" df) eqn:H; [gate_chart|done].
  - unfold churn_by_age.
    destruct (has_column "Age" df) eqn:H; [gate_chart|done].
  - unfold churn_by_credit_score.
    destruct (has_column "CreditScore" df) eqn:H; [gate_chart|done].
  - unfold salary_by_age_group.
    destruct (has_column "AgeGroup" df) eqn:H1; [|done].
    destruct (has_column "EstimatedSalary" df) eqn:H2; [|done].
    gate_chart.
  - unfold churn_by_tenure.
    destruct (has_column "Tenure" df) eqn:H; [gate_chart|done].
  - intros H. unfold churn_by_credit_score_category. by rewrite H.
Qed.

Lemma optional_charts_gated_witness :
  gated_chart true (churn_by_gender sample_table)
  ∧ gated_chart true (salary_by_age_group sample_table)
  ∧ gated_chart false (churn_by_gender table_exited_only)
  ∧ churn_by_credit_score_category table_exited_only = Run [] (Done tt).
Proof.
  destruct (optional_charts_gated sample_table eq_refl) as (H1 & _ & _ & H4 & _).
  destruct (optional_charts_gated table_exited_only eq_refl)
    as (H1' & _ & _ & _ & _ & H6').
  split_and!; [exact H1|exact H4|exact H1'|exact (H6' eq_refl)].
Defined.

(* ===================================================================== *)
(** ** What the loader returns                                            *)
(* ===================================================================== *)

Lemma drop_present names df :
  drop (filter (λ col, has_column col df) names) df
  = Ok (without_columns (filter (λ col, has_column col df) names) df).
Proof.
  unfold drop.
  assert (H : filter (λ n, has_column n df = false)
                (filter (λ col, has_column col df) names) = []).
  { induction names as [|n names IH]; [done|].
    rewrite filter_cons. destruct (decide (has_column n df)) as [Hn|Hn]; [|done].
    rewrite filter_cons, IH. apply Is_true_eq_true in Hn.
    rewrite decide_False by congruence. done. }
  by rewrite H.
Qed.

Lemma lookup_without_present names name df :
  lookup_column name
    (columns (without_columns (filter (λ col, has_column col df) names) df))
  = if decide (name ∈ names) then None else lookup_column name (columns df).
Proof.
  destruct (decide (name ∈ names)) as [Hin|Hin].
  - destruct (has_column name df) eqn:Hhas.
    + apply lookup_without_dropped, list_elem_of_filter.
      split; [by apply Is_true_eq_left|done].
    + rewrite lookup_without_other.
      * by apply has_column_false.
      * intros [Hp _]%list_elem_of_filter. apply Is_true_eq_true in Hp. congruence.
  - apply lookup_without_other. by intros [_ ?]%list_elem_of_filter.
Qed.

Lemma without_columns_well_formed names df :
  well_formed df = true → well_formed (without_columns names df) = true.
Proof.
  unfold well_formed, without_columns. cbn [nrows columns].
  intros [Hlen Hnd]%andb_true_iff. apply andb_true_iff. split.
  - clear Hnd. induction (columns df) as [|nc cols IH]; [done|].
    cbn [forallb] in Hlen. apply andb_true_iff in Hlen as [H1 H2].
    rewrite filter_cons. destruct (decide (nc.1 ∉ names)); [|by apply IH].
    cbn [forallb]. rewrite H1. by apply IH.
  - apply bool_decide_eq_true. apply bool_decide_eq_true in Hnd.
    eapply sublist_NoDup; [exact Hnd|].
    apply fmap_sublist, sublist_filter.
Qed.

Lemma load_miss fs country s path raw :
  cache s !! country = None →
  file_map !! country = Some path →
  fs path = Some raw →
  ∃ df,
    load_country_data fs country s
    = (Ok df, {| cache := <[country := df]> (cache s); reads := reads s ++ [path] |})
    ∧ nrows df = nrows raw
    ∧ (∀ name, lookup_column name (columns df)
               = if decide (name ∈ cols_to_drop) then None
                 else lookup_column name (columns raw))
    ∧ (well_formed raw = true → well_formed df = true).
Proof.
  intros Hmiss Hmap Hfile.
  exists (without_columns (filter (λ col, has_column col raw) cols_to_drop) raw).
  split_and!.
  - unfold load_country_data, cache_data, load_country_data_body.
    rewrite Hmiss, Hmap, Hfile, drop_present. done.
  - done.
  - intros name. apply lookup_without_present.
  - apply without_columns_well_formed.
Qed.

(** X1. A call that misses the cache and finds the country's file reads
    that one file, never raises, and returns the file's table without the
    columns [Unnamed: 0] and [RowNumber]: the same rows, every other
    column untouched, well formed if the file's table is.  The result is
    stored under the country. *)
Theorem load_miss_returns_file_without_index fs country s path raw :
  cache s !! country = None →
  file_map !! country = Some path →
  fs path = Some raw →
  ∃ df,
    load_country_data fs country s
    = (Ok df, {| cache := <[country := df]> (cache s); reads := reads s ++ [path] |})
    ∧ nrows df = nrows raw
    ∧ (∀ name, lookup_column name (columns df)
               = if decide (name ∈ cols_to_drop) then None
                 else lookup_column name (columns raw))
    ∧ (well_formed raw = true → well_formed df = true).
Proof. apply load_miss. Qed.

Lemma load_miss_returns_file_without_index_witness :
  ∃ df,
    load_country_data sample_files "France" empty_session
    = (Ok df, {| cache := <["France"%string := df]> ∅; reads := [] ++ ["france_df.csv"%string] |})
    ∧ nrows df = 4%nat
    ∧ lookup_column "RowNumber" (columns df) = None
    ∧ lookup_column "Exited" (columns df) = Some (IntCol [1; 0; 0; 1]%Z).
Proof.
  destruct (load_miss_returns_file_without_index sample_files "France" empty_session
              "france_df.csv" sample_file eq_refl eq_refl eq_refl)
    as (df & Hload & Hrows & Hcols & _).
  exists df. split_and!; [exact Hload|exact Hrows|..].
  - rewrite Hcols. reflexivity.
  - rewrite Hcols. reflexivity.
Defined.

(** X2. A failed load is not cached.  When the country's file is missing
    the call raises FileNotFoundError and stores nothing, so that a later
    call, once the file exists, reads it and succeeds. *)
Theorem load_failure_not_cached fs fs' country s path raw :
  cache s !! country = None →
  file_map !! country = Some path →
  fs path = None →
  fs' path = Some raw →
  let failed := load_country_data fs country s in
  fst failed = Err (FileNotFoundError path)
  ∧ cache (snd failed) = cache s
  ∧ ∃ df, fst (load_country_data fs' country (snd failed)) = Ok df.
Proof.
  intros Hmiss Hmap Hnone Hfile failed.
  assert (Hf : failed = (Err (FileNotFoundError path),
                         {| cache := cache s; reads := reads s ++ [path] |})).
  { unfold failed, load_country_data, cache_data, load_country_data_body.
    by rewrite Hmiss, Hmap, Hnone. }
  rewrite Hf. split_and!; [done|done|]. cbn [snd].
  destruct (load_miss fs' country
              {| cache := cache s; reads := reads s ++ [path] |} path raw)
    as (df & Hload & _); [done..|].
  exists df. by rewrite Hload.
Qed.

Lemma load_failure_not_cached_witness :
  fst (load_country_data no_files "France" empty_session)
  = Err (FileNotFoundError "france_df.csv")
  ∧ ∃ df, fst (load_country_data sample_files "France"
                 (snd (load_country_data no_files "France" empty_session))) = Ok df.
Proof.
  destruct (load_failure_not_cached no_files sample_files "France" empty_session
              "france_df.csv" sample_file eq_refl eq_refl eq_refl eq_refl)
    as (H1 & _ & H3).
  split; [exact H1|exact H3].
Defined.

(** X3. Loading one country leaves what the cache holds for every other
    country as it was. *)
Theorem load_keeps_other_countries fs country other s :
  country ≠ other →
  cache (snd (load_country_data fs country s)) !! other = cache s !! other.
Proof.
  intros Hne. unfold load_country_data, cache_data.
  destruct (cache s !! country); [done|].
  destruct (load_country_data_body fs country) as [files [df|e]]; cbn [snd cache];
    [|done].
  by apply lookup_insert_ne.
Qed.

Lemma load_keeps_other_countries_witness :
  cache (snd (load_country_data sample_files "France" empty_session)) !! "Spain"%string
  = cache empty_session !! "Spain"%string.
Proof. apply (load_keeps_other_countries sample_files "France" "Spain"). discriminate. Defined.

(** X4. Whatever state the selectbox is in, the value it returns is one
    of the three countries and has a file in [file_map]: the dictionary
    lookup of line 24 cannot raise. *)
Theorem selected_country_has_file choice :
  selected countries choice ∈ countries
  ∧ ∃ path, file_map !! selected countries choice = Some path.
Proof.
  destruct choice as [|[|[|n]]].
  - split; [apply list_elem_of_here|by eexists].
  - split; [apply list_elem_of_further, list_elem_of_here|by eexists].
  - split; [do 2 apply list_elem_of_further; apply list_elem_of_here|by eexists].
  - assert (selected countries (S (S (S n))) = "France"%string) as ->
      by (unfold selected, countries; destruct n; reflexivity).
    split; [apply list_elem_of_here|by eexists].
Qed.

(* ===================================================================== *)
(** ** The most frequent value                                            *)
(* ===================================================================== *)

Lemma argmax_from_spec best rest :
  ∃ n, (argmax_from best rest, n) ∈ best :: rest
       ∧ ∀ p, p ∈ best :: rest → p.2 ≤ n.
Proof.
  revert best. induction rest as [|q rest IH]; intros best; cbn [argmax_from].
  - exists best.2. split; [destruct best; apply list_elem_of_here|].
    by intros p ->%list_elem_of_singleton.
  - destruct (best.2 <? q.2)%nat eqn:Hlt.
    + apply Nat.ltb_lt in Hlt. destruct (IH q) as (n & Hin & Hmax).
      exists n. split; [by apply list_elem_of_further|].
      intros p [->|Hp]%elem_of_cons; [|by apply Hmax].
      specialize (Hmax q (list_elem_of_here _ _)). lia.
    + apply Nat.ltb_ge in Hlt. destruct (IH best) as (n & Hin & Hmax).
      exists n. split.
      * apply elem_of_cons in Hin as [Hin|Hin]; [rewrite Hin; apply list_elem_of_here|].
        by do 2 apply list_elem_of_further.
      * intros p [->|[->|Hp]%elem_of_cons]%elem_of_cons.
        -- apply Hmax, list_elem_of_here.
        -- specialize (Hmax best (list_elem_of_here _ _)). lia.
        -- by apply Hmax, list_elem_of_further.
Qed.

Lemma most_common_mode frame name col :
  lookup_column name (columns frame) = Some col →
  cells col ≠ [] →
  ∃ top, most_common frame name = Ok top
         ∧ top ∈ cells col
         ∧ ∀ y, count_of y (cells col) ≤ count_of top (cells col).
Proof.
  intros Hcol Hne. unfold most_common, has_column, getitem. rewrite Hcol. cbn.
  destruct (value_counts col) as [|p rest] eqn:Hvc.
  - exfalso. destruct (cells col) as [|x xs] eqn:Hcells; [done|].
    assert (Hin : (x, count_of x (cells col)) ∈ value_counts col).
    { apply elem_of_value_counts. split; [done|].
      apply count_of_pos. rewrite Hcells. apply list_elem_of_here. }
    rewrite Hvc in Hin. by apply elem_of_nil in Hin.
  - cbn [idxmax]. destruct (argmax_from_spec p rest) as (n & Hin & Hmax).
    exists (argmax_from p rest). rewrite <-Hvc in Hin, Hmax.
    apply elem_of_value_counts in Hin as [-> Hpos].
    split_and!; [done|by apply count_of_pos|].
    intros y. destruct (decide (count_of y (cells col) = 0)) as [->|Hy]; [lia|].
    apply (Hmax (y, count_of y (cells col))).
    apply elem_of_value_counts. split; [done|lia].
Qed.

(** X7. For a column that is present and not empty, the field of lines
    134-135 is a value of the column that no other value outnumbers. *)
Theorem most_common_is_a_mode frame name col :
  lookup_column name (columns frame) = Some col →
  cells col ≠ [] →
  ∃ top, most_common frame name = Ok top
         ∧ top ∈ cells col
         ∧ ∀ y, count_of y (cells col) ≤ count_of top (cells col).
Proof. apply most_common_mode. Qed.

Lemma most_common_is_a_mode_witness :
  ∃ top, most_common sample_table "Card Type" = Ok top
         ∧ top ∈ [CStr "GOLD"; CStr "GOLD"; CStr "SILVER"; CStr "GOLD"]
         ∧ count_of (CStr "SILVER") [CStr "GOLD"; CStr "GOLD"; CStr "SILVER"; CStr "GOLD"]
           ≤ count_of top [CStr "GOLD"; CStr "GOLD"; CStr "SILVER"; CStr "GOLD"].
Proof.
  destruct (most_common_is_a_mode sample_table "Card Type"
              (StrCol ["GOLD"; "GOLD"; "SILVER"; "GOLD"]) eq_refl)
    as (top & H1 & H2 & H3); [discriminate|].
  exists top. split_and!; [exact H1|exact H2|apply H3].
Defined.

(** X8. The slices of the churn pie come in order of size, largest
    first, as [value_counts] lists them. *)
Theorem pie_slices_descending exited :
  StronglySorted (λ a b, b ≤ a) (churn_counts exited).*2.
Proof.
  unfold churn_counts. rewrite rename_values.
  apply (StronglySorted_fmap snd more_frequent); [by intros ? ?|].
  apply sort_by_count_sorted.
Qed.

(* ===================================================================== *)
(** ** Churned and retained customers                                     *)
(* ===================================================================== *)

Lemma select_length {A} (mask : list bool) (xs : list A) :
  length mask = length xs → length (select mask xs) = count_true mask.
Proof.
  unfold count_true. revert xs.
  induction mask as [|b mask IH]; intros [|x xs] Hlen; try done.
  injection Hlen as Hlen. cbn [select]. rewrite filter_cons.
  destruct b; cbn [length]; rewrite ?IH by done; done.
Qed.

Lemma select_column_length mask c :
  length mask = col_length c → col_length (select_column mask c) = count_true mask.
Proof.
  unfold col_length. destruct c; cbn [cells select_column];
    rewrite !length_fmap; apply select_length.
Qed.

Lemma eq_scalar_length c v : length (eq_scalar c v) = col_length c.
Proof. unfold col_length. destruct c; cbn; by rewrite !length_fmap. Qed.

Lemma eq_scalar_count xs v : count_true (eq_scalar (IntCol xs) v) = occurrences v xs.
Proof.
  unfold count_true, occurrences. cbn [eq_scalar].
  induction xs as [|x xs IH]; [done|].
  rewrite fmap_cons, !filter_cons.
  destruct (decide (x = v)) as [->|Hne].
  - rewrite bool_decide_eq_true_2 by done. rewrite decide_True by done.
    cbn [length]. by rewrite IH.
  - rewrite bool_decide_eq_false_2 by done. rewrite decide_False by done. done.
Qed.

Lemma filter_rows_well_formed mask df :
  well_formed df = true → length mask = nrows df →
  well_formed (filter_rows mask df) = true
  ∧ nrows (filter_rows mask df) = count_true mask.
Proof.
  intros Hwf Hmask.
  assert (Hrows : nrows (filter_rows mask df) = count_true mask).
  { unfold filter_rows. cbn [nrows]. apply select_length. by rewrite length_seq. }
  split; [|done].
  unfold well_formed in *. apply andb_true_iff in Hwf as [Hlen Hnd].
  apply andb_true_iff. split.
  - rewrite Hrows. unfold filter_rows. cbn [columns]. clear Hnd Hrows.
    induction (columns df) as [|nc cols IH]; [done|].
    cbn [forallb] in Hlen. apply andb_true_iff in Hlen as [H1 H2].
    rewrite fmap_cons. cbn [forallb snd]. rewrite IH by done.
    apply Nat.eqb_eq in H1. rewrite select_column_length by lia.
    by rewrite Nat.eqb_refl.
  - apply bool_decide_eq_true. apply bool_decide_eq_true in Hnd.
    unfold filter_rows. cbn [columns]. rewrite <-list_fmap_compose.
    replace ((fst ∘ (λ nc : string * column, (nc.1, select_column mask nc.2)))
               <$> columns df) with (columns df).*1; [done|].
    by apply list_fmap_ext.
Qed.

(** X9. On a well-formed table whose [Exited] column holds only 0 and 1,
    the frames [churned] and [retained] of lines 128-129 are well formed
    and split the rows: [churned] has as many rows as the Churned
    Customers metric counts, and together they have as many as the
    table. *)
Theorem churned_and_retained_split_rows df xs :
  well_formed df = true →
  getitem df "Exited" = Ok (IntCol xs) →
  Forall (λ x, x = 0 ∨ x = 1)%Z xs →
  let churned := filter_rows (eq_scalar (IntCol xs) 1) df in
  let retained := filter_rows (eq_scalar (IntCol xs) 0) df in
  well_formed churned = true ∧ well_formed retained = true
  ∧ series_sum (IntCol xs) = CInt (Z.of_nat (nrows churned))
  ∧ (nrows churned + nrows retained = nrows df)%nat.
Proof.
  intros Hwf Hex Hflags churned retained.
  assert (Hlen : length xs = nrows df).
  { unfold getitem in Hex.
    destruct (lookup_column "Exited" (columns df)) as [c|] eqn:Hc; [|done].
    injection Hex as ->.
    pose proof (well_formed_col_length df _ _ Hwf Hc) as Hl.
    unfold col_length in Hl. cbn in Hl. by rewrite length_fmap in Hl. }
  assert (Hm : ∀ v, length (eq_scalar (IntCol xs) v) = nrows df).
  { intros v. rewrite eq_scalar_length. unfold col_length. cbn.
    by rewrite length_fmap. }
  destruct (filter_rows_well_formed _ df Hwf (Hm 1%Z)) as [Hw1 Hn1].
  destruct (filter_rows_well_formed _ df Hwf (Hm 0%Z)) as [Hw0 Hn0].
  fold churned in Hw1, Hn1. fold retained in Hw0, Hn0.
  rewrite eq_scalar_count in Hn1, Hn0.
  split_and!; [done|done| |].
  - cbn [series_sum]. by rewrite (Zsum_flags xs Hflags), Hn1.
  - rewrite Hn1, Hn0, <-Hlen. clear -Hflags. unfold occurrences.
    induction Hflags as [|x xs Hx _ IH]; [done|].
    rewrite !filter_cons. destruct Hx as [-> | ->].
    + rewrite decide_False, decide_True by done. cbn [length]. lia.
    + rewrite decide_True, decide_False by done. cbn [length]. lia.
Qed.

Lemma churned_and_retained_split_rows_witness :
  let churned := filter_rows (eq_scalar (IntCol [1; 0; 0; 1]%Z) 1) sample_table in
  let retained := filter_rows (eq_scalar (IntCol [1; 0; 0; 1]%Z) 0) sample_table in
  well_formed churned = true
  ∧ (nrows churned + nrows retained = nrows sample_table)%nat.
Proof.
  destruct (churned_and_retained_split_rows sample_table [1; 0; 0; 1]%Z)
    as (H1 & _ & _ & H4).
  - reflexivity.
  - reflexivity.
  - repeat first [apply Forall_nil_2 | apply Forall_cons_2; [lia|]].
  - split; [exact H1|exact H4].
Defined.

(* ===================================================================== *)
(** ** Edge cases of the metrics and of the number formats                *)
(* ===================================================================== *)

Lemma empty_column c : col_length c = 0%nat → cells c = [].
Proof. unfold col_length. by intros ?%nil_length_inv. Qed.

(** X11. On a well-formed table with an [Exited] column and no rows the
    metrics block raises nothing: it shows 0 customers and the churn rate
    [nan], the mean of no values. *)
Theorem empty_table_shows_nan df :
  well_formed df = true →
  nrows df = 0%nat →
  has_column "Exited" df = true →
  ∃ churned,
    metrics df = Run [st_columns 3;
                      in_column 1 (st_metric "Total Customers" (CInt 0));
                      in_column 2 (st_metric "Churned Customers" churned);
                      in_column 3 (st_metric "Churn Rate (%)" (CStr "nan"))]
                     (Done NaN).
Proof.
  intros Hwf Hrows [c Hc]%has_column_true.
  pose proof (well_formed_col_length df _ _ Hwf Hc) as Hlen. rewrite Hrows in Hlen.
  apply empty_column in Hlen.
  unfold metrics, getitem. rewrite Hc, Hrows. run_forward.
  destruct c as [[|x xs]|[|x xs]|[|x xs]]; try done; eexists; reflexivity.
Qed.

Lemma empty_table_shows_nan_witness :
  ∃ churned,
    metrics {| nrows := 0; columns := [("Exited", StrCol [])] |}
    = Run [st_columns 3;
           in_column 1 (st_metric "Total Customers" (CInt 0));
           in_column 2 (st_metric "Churned Customers" churned);
           in_column 3 (st_metric "Churn Rate (%)" (CStr "nan"))]
          (Done NaN).
Proof.
  apply (empty_table_shows_nan {| nrows := 0; columns := [("Exited", StrCol [])] |});
    reflexivity.
Defined.

Section ChurnRateRange.
Local Open Scope Z_scope.

(** X12. For a table of 1 to 2^37 rows with [k] churned customers among
    [n], the churn rate printed lies between 0.00 and 100.00; it is 0.00
    when nobody has churned and 100.00 when everybody has. *)
Theorem churn_rate_between_0_and_100 k n :
  0 <= k <= n → 0 < n <= 2 ^ 37 →
  ∃ D, churn_rate_text k n = show_hundredths D
       ∧ 0 <= D <= 10000
       ∧ (k = 0 → churn_rate_text k n = "0.00"%string)
       ∧ (k = n → churn_rate_text k n = "100.00"%string).
Proof.
  intros Hk Hn.
  destruct (churn_rate_text_nearest k n Hk Hn) as (D & Htext & HD & Hnear).
  apply abs_half_bound in Hnear.
  exists D. split_and!; [done|done| | |].
  - assert (2 * D * n <= (2 * 10000 + 1) * n) by nia.
    assert (2 * D <= 2 * 10000 + 1) by (apply (Z.mul_le_mono_pos_r _ _ n); lia).
    lia.
  - intros ->. rewrite Htext. assert (D = 0) as -> by nia. reflexivity.
  - intros ->. rewrite Htext.
    assert (2 * D * n <= (2 * 10000 + 1) * n) by nia.
    assert ((2 * 10000 - 1) * n <= 2 * D * n) by nia.
    assert (2 * D <= 2 * 10000 + 1) by (apply (Z.mul_le_mono_pos_r _ _ n); lia).
    assert (2 * 10000 - 1 <= 2 * D) by (apply (Z.mul_le_mono_pos_r _ _ n); lia).
    assert (D = 10000) as -> by lia. reflexivity.
Qed.

Lemma churn_rate_between_0_and_100_witness :
  ∃ D, churn_rate_text 7 7 = show_hundredths D
       ∧ 0 <= D <= 10000
       ∧ (7 = 0 → churn_rate_text 7 7 = "0.00"%string)
       ∧ (7 = 7 → churn_rate_text 7 7 = "100.00"%string).
Proof. apply (churn_rate_between_0_and_100 7 7); lia. Defined.

End ChurnRateRange.

Lemma group3_strip (n : nat) (l : list ascii) :
  length l ≤ n →
  forallb not_comma l = true →
  List.filter not_comma (group3 l) = l
  ∧ length (group3 l) = (length l + (length l - 1) / 3)%nat.
Proof.
  revert l. induction n as [|n IH]; intros l Hlen Hdigits.
  - destruct l; [done|cbn in Hlen; lia].
  - destruct l as [|a [|b [|c [|d rest]]]]; try done.
    + cbn [forallb] in Hdigits. apply andb_true_iff in Hdigits as [Ha _].
      cbn [group3 List.filter]. rewrite Ha. done.
    + cbn [forallb] in Hdigits.
      apply andb_true_iff in Hdigits as [Ha [Hb _]%andb_true_iff].
      cbn [group3 List.filter]. rewrite Ha, Hb. done.
    + cbn [forallb] in Hdigits.
      apply andb_true_iff in Hdigits as [Ha [Hb [Hc _]%andb_true_iff]%andb_true_iff].
      cbn [group3 List.filter]. rewrite Ha, Hb, Hc. done.
    + cbn [forallb] in Hdigits.
      apply andb_true_iff in Hdigits as [Ha [Hb [Hc Hrest]%andb_true_iff]%andb_true_iff].
      destruct (IH (d :: rest)) as [IH1 IH2]; [cbn in Hlen |- *; lia|done|].
      change (group3 (a :: b :: c :: d :: rest))
        with (a :: b :: c :: ","%char :: group3 (d :: rest)).
      split.
      * cbn [List.filter]. rewrite Ha, Hb, Hc.
        change (not_comma ","%char) with false. cbn iota. by rewrite IH1.
      * cbn [length] in *. rewrite IH2.
        replace (S (S (S (S (length rest)))) - 1)%nat
          with (1 * 3 + (S (length rest) - 1))%nat by lia.
        rewrite Nat.div_add_l by done. lia.
Qed.

Lemma length_of_list_ascii l : String.length (string_of_list_ascii l) = length l.
Proof. induction l as [|c l IH]; [done|]. cbn. by rewrite IH. Qed.

(** X13. The thousands separators of [{x:,.0f}] only add commas: taking
    them out of [with_commas s] gives [s] back for every comma-free [s],
    and a text of [n >= 1] characters gets [(n - 1) / 3] commas. *)
Theorem with_commas_only_adds_commas s :
  forallb not_comma (list_ascii_of_string s) = true →
  strip_commas (with_commas s) = s
  ∧ String.length (with_commas s)
    = (String.length s + (String.length s - 1) / 3)%nat.
Proof.
  intros Hs. unfold strip_commas, with_commas.
  rewrite list_ascii_of_string_of_list_ascii.
  assert (Hrev : forallb not_comma (rev (list_ascii_of_string s)) = true).
  { apply forallb_forall. intros c Hc%in_rev.
    by apply (proj1 (forallb_forall _ _) Hs). }
  destruct (group3_strip _ (rev (list_ascii_of_string s)) (le_n _) Hrev) as [H1 H2].
  split.
  - rewrite filter_rev, H1, rev_involutive. apply string_of_list_ascii_of_string.
  - rewrite <-(string_of_list_ascii_of_string s) at 2 3.
    rewrite !length_of_list_ascii.
    rewrite length_rev, H2, length_rev. done.
Qed.

Lemma with_commas_only_adds_commas_witness :
  strip_commas (with_commas "1234567") = "1234567"%string
  ∧ String.length (with_commas "1234567") = (7 + (7 - 1) / 3)%nat.
Proof. apply (with_commas_only_adds_commas "1234567"). reflexivity. Defined.

(* ===================================================================== *)
(** ** The category order, the group order                   *)
(* ===================================================================== *)

Lemma unique_fold xs acc :
  NoDup acc →
  let r := fold_left (λ acc x, if decide (x ∈ acc) then acc else acc ++ [x]) xs acc in
  NoDup r ∧ ∀ x : cell, x ∈ r ↔ x ∈ acc ∨ x ∈ xs.
Proof.
  revert acc. induction xs as [|y xs IH]; intros acc Hnd; cbn [fold_left].
  - split; [done|]. intros x. rewrite elem_of_nil. tauto.
  - destruct (decide (y ∈ acc)) as [Hin|Hin].
    + destruct (IH acc Hnd) as [H1 H2]. split; [done|].
      intros x. rewrite H2, elem_of_cons. split; [tauto|].
      intros [?|[->|?]]; tauto.
    + assert (Hnd' : NoDup (acc ++ [y])).
      { apply NoDup_app. split_and!; [done| |apply NoDup_singleton].
        by intros x Hx ->%list_elem_of_singleton. }
      destruct (IH _ Hnd') as [H1 H2]. split; [done|].
      intros x. rewrite H2, elem_of_app, list_elem_of_singleton, elem_of_cons. tauto.
Qed.

(** X18. The category order handed to the chart of lines 112-120,
    [sorted(df['CreditScoreCategory'].unique())], lists every value of the
    column exactly once. *)
Theorem category_order_lists_each_value_once c :
  NoDup (sorted (unique c)) ∧ ∀ x, x ∈ sorted (unique c) ↔ x ∈ cells c.
Proof.
  destruct (unique_fold (cells c) [] (NoDup_nil_2)) as [H1 H2].
  unfold sorted, unique. split.
  - by rewrite merge_sort_Permutation.
  - intros x. rewrite merge_sort_Permutation, H2, elem_of_nil. tauto.
Qed.

#[local] Instance cell_le_total : Total cell_le.
Proof.
  intros a b. unfold cell_le.
  destruct a as [x|x|x], b as [y|y|y]; cbn [cell_leb]; auto.
  - destruct (Z.leb_spec x y); [by left|right]. apply Z.leb_le. lia.
  - destruct (Qle_bool (inject_Z x) y) eqn:H; [by left|right].
    apply Qle_bool_iff, Qlt_le_weak, Qnot_le_lt. intros Hle%Qle_bool_iff. congruence.
  - destruct (Qle_bool x (inject_Z y)) eqn:H; [by left|right].
    apply Qle_bool_iff, Qlt_le_weak, Qnot_le_lt. intros Hle%Qle_bool_iff. congruence.
  - destruct (Qle_bool x y) eqn:H; [by left|right].
    apply Qle_bool_iff, Qlt_le_weak, Qnot_le_lt. intros Hle%Qle_bool_iff. congruence.
  - apply String.leb_total.
Qed.

#[local] Instance group_le_total : Total group_le.
Proof.
  intros a b. unfold group_le, key_le.
  destruct (decide (a.1.1 = b.1.1)) as [Heq|Hne].
  - rewrite decide_True by done. apply cell_le_total.
  - rewrite (decide_False (P := b.1.1 = a.1.1)) by congruence. apply cell_le_total.
Qed.


Lemma grouped_bar_without_salary_witness :
  salary_by_age_group_and_card table_without_salary =
  Run [st_markdown "### Avg Estimated Salary by Age Group & Card Type"]
      (Raised (KeyError "Column not found: EstimatedSalary")).
Proof. apply (grouped_bar_without_salary table_without_salary); reflexivity. Defined.

Lemma insights_without_salary_witness :
  insights "Spain" table_exited_only NaN =
  Run [st_markdown "##  Key Findings & Insights"] (Raised (KeyError "EstimatedSalary")).
Proof. apply (insights_without_salary "Spain" table_exited_only NaN); reflexivity. Defined.
